(** * Canopy: the Cohere reranker adapter and the enforced function-call protocol

    The first part embeds [src/canopy/knowledge_base/reranker/cohere.py]
    (class [CohereReranker]): Python objects live in a store addressed by
    object identity, [deepcopy] allocates, attribute assignment updates the
    store in place, and the vendor SDK is an oracle that sees the history of
    the calls made to it.

    The second part models the orchestrator that
    [tests/system/llm/test_openai.py] exercises ([OpenAILLM]), whose code is
    not among the sources, from the specification. *)

From Stdlib Require Import ZArith Floats.
From stdpp Require Import base option list strings gmap.

Local Open Scope Z_scope.

(** ** Exceptions and the state-and-exception monad *)

(** The Python exceptions that the modelled code raises or lets through. *)
Inductive exn : Type :=
| ImportError (msg : string)       (* cohere.py:32 *)
| IndexError                       (* list index out of range *)
| VendorException (msg : string)   (* whatever a vendor SDK call raises *)
| ValidationError (msg : string)   (* jsonschema.ValidationError *)
| JSONDecodeError                  (* a payload that is no serialized value *)
| DanglingReference.               (* a store address with no object: no
                                      Python program can produce one *)

(** The error taxonomy of the specification (section 7). *)
Inductive error_kind : Type :=
| UpstreamError
| SchemaValidationError
| ConfigurationError.

Definition spec_error_kind (e : exn) : option error_kind :=
  match e with
  | ImportError _ => Some ConfigurationError
  | VendorException _ => Some UpstreamError
  | ValidationError _ | JSONDecodeError => Some SchemaValidationError
  | IndexError | DanglingReference => None
  end.

Inductive result (A : Type) : Type :=
| Ok (a : A)
| Raise (e : exn).
Arguments Ok {A} a.
Arguments Raise {A} e.

(** What a call into a vendor SDK does: it returns a value or raises. *)
Inductive vendor_result (A : Type) : Type :=
| Returns (a : A)
| Raises (msg : string).
Arguments Returns {A} a.
Arguments Raises {A} msg.

Definition of_vendor {A} (r : vendor_result A) : result A :=
  match r with
  | Returns a => Ok a
  | Raises msg => Raise (VendorException msg)
  end.

(** A computation over a world [W]: it returns or raises, and in both cases
    leaves a world behind. *)
Definition M (W A : Type) : Type := W -> W * result A.

Definition M_ret {W A} (a : A) : M W A := fun w => (w, Ok a).

Definition M_bind {W A B} (f : A -> M W B) (c : M W A) : M W B :=
  fun w =>
    match c w with
    | (w', Ok a) => f a w'
    | (w', Raise e) => (w', Raise e)
    end.

Definition raise {W A} (e : exn) : M W A := fun w => (w, Raise e).

Definition lift_result {W A} (r : result A) : M W A := fun w => (w, r).

#[global] Instance M_mret {W} : MRet (M W) := @M_ret W.
#[global] Instance M_mbind {W} : MBind (M W) := @M_bind W.

(** The list comprehension [[f(x) for x in xs]]. *)
Fixpoint comprehension {W A B} (f : A -> M W B) (xs : list A) : M W (list B) :=
  match xs with
  | [] => mret []
  | x :: rest =>
      y ← f x;
      ys ← comprehension f rest;
      mret (y :: ys)
  end.

(** Python's [l[i]] on a list: a negative index counts from the end, and an
    index outside [-len(l) .. len(l)-1] is an IndexError. *)
Definition py_index {A} (l : list A) (i : Z) : option A :=
  if 0 <=? i then l !! Z.to_nat i
  else if - Z.of_nat (length l) <=? i then l !! Z.to_nat (Z.of_nat (length l) + i)
  else None.

Definition getitem {W A} (l : list A) (i : Z) : M W A :=
  match py_index l i with
  | Some x => mret x
  | None => raise IndexError
  end.

(** ** [CohereReranker] (src/canopy/knowledge_base/reranker/cohere.py) *)

Module Reranker.

(** Object identity of a document: its address in the store. *)
Abbreviation addr := nat (only parsing).

Section Cohere.

(** The fields of a [KBDocChunkWithScore] that [cohere.py] never touches
    (id, source, metadata, ...): the model class is declared elsewhere in
    the repository, so they stay a parameter. *)
Context {Rest : Type}.

Record KBDocChunkWithScore : Type := {
  text : string;
  score : float;
  rest : Rest;
}.

Definition with_score (d : KBDocChunkWithScore) (s : float) : KBDocChunkWithScore :=
  {| text := text d; score := s; rest := rest d |}.

(** A [KBQueryResult] holds references to its documents.  The result
    objects and their lists are values here: [rerank] only reads those of
    its input ([q_res.query], [q_res.documents], cohere.py:46-57) and
    appends to lists it has created itself; the one assignment to an
    existing object's attribute is that of cohere.py:55, to a document. *)
Record KBQueryResult : Type := {
  query : string;
  documents : list addr;
}.

(** One entry of the vendor's rerank response. *)
Record RerankResult : Type := {
  index : Z;
  relevance_score : float;
}.

(** The keyword arguments of [self._client.rerank(...)]. *)
Record rerank_request : Type := {
  req_query : string;
  req_documents : list string;
  req_top_n : Z;
  req_model : string;
}.

(** What has been asked of the vendor SDK so far. *)
Inductive vendor_event : Type :=
| EvClient (api_key : option string)
| EvRerank (req : rerank_request).

Record world : Type := {
  heap : list KBDocChunkWithScore;
  events : list vendor_event;
}.

(** The vendor SDK, an external collaborator: the client constructor
    [cohere.Client] and the client's [rerank] method.  Each sees the
    events that came before, so two equal requests may be answered
    differently, and each may raise. *)
Context {Client : Type}.
Variable cohere_Client : list vendor_event -> option string -> vendor_result Client.
Variable client_rerank :
  Client -> list vendor_event -> rerank_request -> vendor_result (list RerankResult).

Record CohereReranker : Type := {
  _client : Client;
  _model_name : string;
  _top_n : Z;
  _threshold : float;
}.

Definition new_Client (api_key : option string) : M world Client :=
  fun w =>
    ({| heap := heap w; events := events w ++ [EvClient api_key] |},
     of_vendor (cohere_Client (events w) api_key)).

Definition call_rerank (c : Client) (req : rerank_request) : M world (list RerankResult) :=
  fun w =>
    ({| heap := heap w; events := events w ++ [EvRerank req] |},
     of_vendor (client_rerank c (events w) req)).

Definition import_error_message : string :=
  "Failed to import cohere. Make sure you install cohere extra " +:+
  "dependencies by running: " +:+
  "`pip install canopy-sdk[cohere]".

(** The defaults of the keyword arguments of [__init__] (cohere.py:22-24). *)
Definition default_model_name : string := "rerank-english-v2.0".
Definition default_top_n : Z := 10.
Definition default_threshold : float := 0.0%float.

(** [CohereReranker.__init__] (cohere.py:20-41).  [_cohere_installed] is the
    module-level flag set by the guarded import (cohere.py:4-9).  [top_n]
    and [threshold] arrive as an [int] and a [float], on which [int(..)]
    and [float(..)] are the identity. *)
Definition __init__ (_cohere_installed : bool)
    (api_key : option string) (model_name : string)
    (top_n : Z) (threshold : float) : M world CohereReranker :=
  if negb _cohere_installed then
    raise (ImportError import_error_message)
  else
    client ← new_Client api_key;
    mret {| _client := client;
            _model_name := model_name;
            _top_n := top_n;
            _threshold := threshold |}.

(** [doc.text] *)
Definition get_text (a : addr) : M world string :=
  fun w =>
    match heap w !! a with
    | Some d => (w, Ok (text d))
    | None => (w, Raise DanglingReference)
    end.

(** [deepcopy(doc)]: a new object with the same contents. *)
Definition deepcopy (a : addr) : M world addr :=
  fun w =>
    match heap w !! a with
    | Some d => ({| heap := heap w ++ [d]; events := events w |}, Ok (length (heap w)))
    | None => (w, Raise DanglingReference)
    end.

(** [doc.score = s]: an update of the object in place. *)
Definition set_score (a : addr) (s : float) : M world unit :=
  fun w =>
    match heap w !! a with
    | Some d => ({| heap := <[a := with_score d s]> (heap w); events := events w |}, Ok tt)
    | None => (w, Raise DanglingReference)
    end.

(** [r.relevance_score >= self._threshold] on Python floats (IEEE 754
    binary64). *)
Definition above_threshold (self : CohereReranker) (r : RerankResult) : bool :=
  PrimFloat.leb (_threshold self) (relevance_score r).

(** The inner loop of [rerank] (cohere.py:52-55). *)
Fixpoint rerank_docs (self : CohereReranker) (q_docs : list addr)
    (response : list RerankResult) (reranked_docs : list addr)
    : M world (list addr) :=
  match response with
  | [] => mret reranked_docs
  | r :: response' =>
      if above_threshold self r then
        a ← getitem q_docs (index r);
        c ← deepcopy a;
        let reranked_docs := reranked_docs ++ [c] in
        last ← getitem reranked_docs (-1);
        _ ← set_score last (relevance_score r);
        rerank_docs self q_docs response' reranked_docs
      else
        rerank_docs self q_docs response' reranked_docs
  end.

Definition request_of (self : CohereReranker) (q : string) (texts : list string)
    : rerank_request :=
  {| req_query := q;
     req_documents := texts;
     req_top_n := _top_n self;
     req_model := _model_name self |}.

(** The outer loop of [rerank] (cohere.py:45-58). *)
Fixpoint rerank_loop (self : CohereReranker) (results : list KBQueryResult)
    (reranked : list KBQueryResult) : M world (list KBQueryResult) :=
  match results with
  | [] => mret reranked
  | q_res :: results' =>
      texts ← comprehension get_text (documents q_res);
      response ← call_rerank (_client self) (request_of self (query q_res) texts);
      reranked_docs ← rerank_docs self (documents q_res) response [];
      rerank_loop self results'
        (reranked ++ [{| query := query q_res; documents := reranked_docs |}])
  end.

(** [CohereReranker.rerank] (cohere.py:43-59). *)
Definition rerank (self : CohereReranker) (results : list KBQueryResult)
    : M world (list KBQueryResult) :=
  rerank_loop self results [].

(** *** What the claims about [rerank] say *)

(** Every reference held by the input is live in the store [h]. *)
Definition live_results (h : list KBDocChunkWithScore)
    (results : list KBQueryResult) : Prop :=
  Forall (λ q, Forall (λ a, is_Some (h !! a)) (documents q)) results.

(** The object at [a'] in the store [h'] is a copy, made after [h], of the
    document of [q_docs] that the response entry [r] points to: it has the
    text and the other fields of that document, and its score is the
    entry's relevance score. *)
Definition kept_copy (h h' : list KBDocChunkWithScore) (q_docs : list addr)
    (r : RerankResult) (a' : addr) : Prop :=
  ∃ a d d', py_index q_docs (index r) = Some a ∧
            h !! a = Some d ∧
            h' !! a' = Some d' ∧
            text d' = text d ∧
            rest d' = rest d ∧
            score d' = relevance_score r ∧
            (length h ≤ a')%nat.

(** [q_out] is the reranking of [q_in]: the vendor was asked about the
    query and the texts of [q_in], and the documents of [q_out] are, in the
    order of the response, the copies of those entries that reach the
    threshold. *)
Definition reranked_of (self : CohereReranker) (h h' : list KBDocChunkWithScore)
    (q_in q_out : KBQueryResult) : Prop :=
  query q_out = query q_in ∧
  ∃ evs texts response,
    Forall2 (λ a t, ∃ d, h !! a = Some d ∧ text d = t) (documents q_in) texts ∧
    client_rerank (_client self) evs (request_of self (query q_in) texts)
      = Returns response ∧
    Forall2 (kept_copy h h' (documents q_in))
      (List.filter (above_threshold self) response) (documents q_out).

End Cohere.

Arguments KBDocChunkWithScore Rest : clear implicits.
Arguments world Rest : clear implicits.
Arguments CohereReranker Client : clear implicits.

End Reranker.

(** ** The enforced function call of [OpenAILLM]

    [canopy.llm.openai] and [canopy.llm.models] are not among the sources:
    only their system tests are (tests/system/llm/test_openai.py).  The
    definitions of this module follow sections 3, 4.1 and 7 of the
    specification, and the shapes that the tests build. *)

Module LLM.

(** Modelled from the spec: the [Role] enumeration of
    [canopy.models.data_models], "role: enum(USER, ASSISTANT, SYSTEM,
    FUNCTION)". *)
Inductive Role : Type := USER | ASSISTANT | SYSTEM | FUNCTION.

(** Modelled from the spec: [MessageBase] of [canopy.models.data_models],
    "Message: {role, content: text}". *)
Record MessageBase : Type := {
  role : Role;
  content : string;
}.

(** Modelled from the spec: the values a serialized payload decodes to; a
    "key/value mapping" is a [JObject]. *)
#[warnings="-register-all"]
Inductive json : Type :=
| JNull
| JBool (b : bool)
| JInt (n : Z)
| JFloat (x : float)
| JString (s : string)
| JArray (items : list json)
| JObject (members : gmap string json).

(** Modelled from the spec: the type names of a "typed property
    descriptor"; [items_type="string"] in test_openai.py:60 is [TString]. *)
Inductive json_type : Type :=
| TString | TInteger | TNumber | TBoolean | TNull | TArray | TObject.

Definition has_type (t : json_type) (v : json) : bool :=
  match t, v with
  | TString, JString _ => true
  | TInteger, JInt _ => true
  | TNumber, (JInt _ | JFloat _) => true
  | TBoolean, JBool _ => true
  | TNull, JNull => true
  | TArray, JArray _ => true
  | TObject, JObject _ => true
  | _, _ => false
  end.

(** Modelled from the spec: the property descriptors of
    [canopy.llm.models]; [ArrayOf t] is [FunctionArrayProperty] with
    [items_type = t] (test_openai.py:58-62). *)
Inductive property_type : Type :=
| Scalar (t : json_type)
| ArrayOf (items_type : json_type).

Record FunctionProperty : Type := {
  prop_name : string;
  prop_type : property_type;
  prop_description : string;
}.

(** Modelled from the spec: "parameters: schema{required_properties: ordered
    sequence of typed property descriptors}". *)
Record FunctionParameters : Type := {
  required_properties : list FunctionProperty;
}.

(** Modelled from the spec: "Function Definition: {name, description,
    parameters}" ([Function] of [canopy.llm.models]). *)
Record Function : Type := {
  name : string;
  description : string;
  parameters : FunctionParameters;
}.

(** Modelled from the spec: the "optional generation parameters
    (temperature, top_p, n, max_tokens -- each forwarded verbatim to the
    vendor client)". *)
Record ModelParams : Type := {
  temperature : option float;
  top_p : option float;
  n : option Z;
  max_tokens : option Z;
}.

(** Modelled from the spec: the request of an enforced function call, which
    instructs the vendor model "to call exactly the named function". *)
Record chat_request : Type := {
  req_messages : list MessageBase;
  req_function : Function;
  req_params : ModelParams;
}.

(** The vendor's answer, in the shape that test_openai.py:211-215 builds:
    [choices[0].message.tool_calls[0].function.arguments]. *)
Record ToolCall : Type := { arguments : string }.
Record ResponseMessage : Type := { tool_calls : list ToolCall }.
Record Choice : Type := { message : ResponseMessage }.
Record ChatCompletion : Type := { choices : list Choice }.

(** The calls made to the vendor chat client so far
    ([_client.chat.completions.create.call_count] is the length). *)
Record world : Type := { calls : list chat_request }.

Section Orchestrator.

(** The vendor chat client, which sees the calls that came before ("each
    attempt may produce a different payload"), and the decoder of the
    serialized payload. *)
Variable create : list chat_request → chat_request → vendor_result ChatCompletion.
Variable json_loads : string → option json.

Definition chat_completions_create (req : chat_request) : M world ChatCompletion :=
  fun w => ({| calls := calls w ++ [req] |}, of_vendor (create (calls w) req)).

Definition loads (s : string) : M world json :=
  match json_loads s with
  | Some v => mret v
  | None => raise JSONDecodeError
  end.

(** The message of the validation error for a missing required property,
    as test_openai.py:218 expects it. *)
Definition required_message (p : string) : string :=
  "'" +:+ p +:+ "' is a required property".

Definition type_message (p : string) : string :=
  "'" +:+ p +:+ "' does not satisfy its declaration".

Definition not_object_message : string := "the payload is not of type 'object'".

Definition has_key (m : gmap string json) (k : string) : bool :=
  match m !! k with Some _ => true | None => false end.

(** Modelled from the spec: a value that has a length is empty when its
    length is zero ([len(..) > 0] in test_openai.py:28 and 30). *)
Definition is_empty (v : json) : bool :=
  match v with
  | JString EmptyString => true
  | JArray [] => true
  | JObject members => Nat.eqb (size members) 0
  | _ => false
  end.

(** Modelled from the spec: what a declared property asks of its value.
    "for array-typed properties, the value is a non-empty ordered sequence
    whose elements satisfy the declared item type (e.g., non-empty
    strings)" (section 4.1, Output; test_openai.py:27-30). *)
Definition conforms (t : property_type) (v : json) : bool :=
  match t with
  | Scalar t => has_type t v
  | ArrayOf t =>
      match v with
      | JArray (item :: items) =>
          forallb (λ x, has_type t x && negb (is_empty x)) (item :: items)
      | _ => false
      end
  end.

Definition property_ok (m : gmap string json) (p : FunctionProperty) : bool :=
  match m !! prop_name p with
  | Some v => conforms (prop_type p) v
  | None => true
  end.

(** Modelled from the spec: the Function-Call Schema Validator, which
    "validates a vendor-returned structured payload against" the Function
    Definition: "required property names and declared item types", to the
    effect of the output guarantee of section 4.1.  A missing required
    property is reported before a value that does not conform. *)
Definition validate (f : Function) (instance : json) : result (gmap string json) :=
  match instance with
  | JObject m =>
      let required := required_properties (parameters f) in
      match List.find (λ p, negb (has_key m (prop_name p))) required with
      | Some p => Raise (ValidationError (required_message (prop_name p)))
      | None =>
          match List.find (λ p, negb (property_ok m p)) required with
          | Some p => Raise (ValidationError (type_message (prop_name p)))
          | None => Ok m
          end
      end
  | _ => Raise (ValidationError not_object_message)
  end.

Definition request_for (messages : list MessageBase) (f : Function)
    (params : ModelParams) : chat_request :=
  {| req_messages := messages; req_function := f; req_params := params |}.

(** Modelled from the spec: one attempt of the Enforced Function-Call
    Orchestrator: "invoke the vendor chat client instructing it to call
    exactly the named function; extract the first tool/function call's
    argument payload (a serialized key/value mapping); parse and validate
    it against the Function Definition's declared schema". *)
Definition function_call_once (messages : list MessageBase) (f : Function)
    (params : ModelParams) : M world (gmap string json) :=
  completion ← chat_completions_create (request_for messages f params);
  choice ← getitem (choices completion) 0;
  tool_call ← getitem (tool_calls (message choice)) 0;
  instance ← loads (arguments tool_call);
  lift_result (validate f instance).

(** Modelled from the spec: what is retried.  "SchemaValidationError: a
    structured payload from the vendor does not satisfy the declared
    Function Definition schema.  Retried up to a fixed attempt bound";
    "UpstreamError ... Not retried by this layer". *)
Definition retryable (e : exn) : bool :=
  match spec_error_kind e with
  | Some SchemaValidationError => true
  | _ => false
  end.

(** Modelled from the spec: the "bounded-retry combinator" of section 9:
    [body] is run again, as a full round-trip, only when it raised a
    retryable error and retries are left; the last error is the one
    propagated. *)
Fixpoint with_retries {A} (retries : nat) (body : M world A) (w : world)
    : world * result A :=
  match body w with
  | (w', Raise e) =>
      match retries with
      | S retries' =>
          if retryable e then with_retries retries' body w' else (w', Raise e)
      | O => (w', Raise e)
      end
  | (w', Ok a) => (w', Ok a)
  end.

(** Modelled from the spec: "a fixed bound (observed bound: 3 total
    attempts)". *)
Definition max_attempts : nat := 3.

(** Modelled from the spec: [OpenAILLM.enforced_function_call] (section
    4.1): the first attempt and up to [max_attempts - 1] retries. *)
Definition enforced_function_call (messages : list MessageBase) (f : Function)
    (params : ModelParams) : M world (gmap string json) :=
  with_retries (max_attempts - 1) (function_call_once messages f params).

(** *** What the claims about [enforced_function_call] say *)

(** The first tool call of the vendor's answer decodes to the mapping [m]. *)
Definition payload_of (c : ChatCompletion) (m : gmap string json) : Prop :=
  ∃ choice tool_call,
    py_index (choices c) 0 = Some choice ∧
    py_index (tool_calls (message choice)) 0 = Some tool_call ∧
    json_loads (arguments tool_call) = Some (JObject m).

(** The mapping [m] lacks a required property of [f]. *)
Definition lacks_required (f : Function) (m : gmap string json) : Prop :=
  ∃ p, p ∈ required_properties (parameters f) ∧ m !! prop_name p = None.

(** The value [v] is of the type named [t]. *)
Inductive of_type : json_type → json → Prop :=
| string_value s : of_type TString (JString s)
| integer_value n : of_type TInteger (JInt n)
| number_value_int n : of_type TNumber (JInt n)
| number_value_float x : of_type TNumber (JFloat x)
| boolean_value b : of_type TBoolean (JBool b)
| null_value : of_type TNull JNull
| array_value items : of_type TArray (JArray items)
| object_value members : of_type TObject (JObject members).

(** A string, an array or a mapping is non-empty; other values have no
    length. *)
Definition nonempty_value (v : json) : Prop :=
  match v with
  | JString s => s ≠ EmptyString
  | JArray items => items ≠ []
  | JObject members => members ≠ ∅
  | _ => True
  end.

(** The value [v] is what the descriptor's type declares: for an array
    type, a non-empty array of non-empty values of the item type. *)
Definition of_declared_type (t : property_type) (v : json) : Prop :=
  match t with
  | Scalar t => of_type t v
  | ArrayOf t =>
      ∃ items, v = JArray items ∧ items ≠ [] ∧
               Forall (λ x, of_type t x ∧ nonempty_value x) items
  end.

End Orchestrator.
End LLM.

(** ** Concrete stores, vendors and fixtures *)

Module Examples.
Import Reranker LLM.

(** *** A store of two documents and a vendor that honours [top_n] *)

Definition doc_a : KBDocChunkWithScore nat :=
  {| text := "alpha"; score := 0.25%float; rest := 7%nat |}.
Definition doc_b : KBDocChunkWithScore nat :=
  {| text := "beta"; score := 0.75%float; rest := 8%nat |}.

Definition store0 : Reranker.world nat := {| heap := [doc_a; doc_b]; events := [] |}.

Definition results0 : list KBQueryResult :=
  [ {| query := "first"; documents := [0; 1]%nat |};
    {| query := "second"; documents := [1]%nat |} ].

(** The vendor ranks the last document first, rejects a negative [top_n]
    and returns no more than [top_n] entries. *)
Definition ranking : list RerankResult :=
  [ {| index := -1; relevance_score := 0.875%float |};
    {| index := 0; relevance_score := 0.125%float |} ].

Definition example_rerank (c : unit) (evs : list vendor_event) (req : rerank_request)
    : vendor_result (list RerankResult) :=
  if req_top_n req <? 0 then Raises "top_n must be non-negative"
  else Returns (take (Z.to_nat (req_top_n req)) ranking).

Definition example_Client (evs : list vendor_event) (api_key : option string)
    : vendor_result unit :=
  match api_key with
  | Some _ => Returns tt
  | None => Raises "no API key provided"
  end.

(** What [rerank] leaves and returns on [results0] from [store0]. *)
Definition store1 : Reranker.world nat :=
  {| heap := [ doc_a; doc_b;
               with_score doc_b 0.875%float; with_score doc_a 0.125%float;
               with_score doc_b 0.875%float; with_score doc_b 0.125%float ];
     events :=
       [ EvRerank {| req_query := "first"; req_documents := ["alpha"; "beta"];
                     req_top_n := 10; req_model := "rerank-english-v2.0" |};
         EvRerank {| req_query := "second"; req_documents := ["beta"];
                     req_top_n := 10; req_model := "rerank-english-v2.0" |} ] |}.

Definition reranked0 : list KBQueryResult :=
  [ {| query := "first"; documents := [2; 3]%nat |};
    {| query := "second"; documents := [4; 5]%nat |} ].

Definition reranker0 : CohereReranker unit :=
  {| _client := tt; _model_name := default_model_name;
     _top_n := default_top_n; _threshold := 0.125%float |}.

(** *** The fixtures of test_openai.py *)

(** test_openai.py:42-48 *)
Definition messages : list MessageBase :=
  [ {| role := USER; content := "Hello, assistant." |};
    {| role := ASSISTANT; content := "Hello, user. How can I assist you?" |} ].

(** test_openai.py:52-65 *)
Definition function_query_knowledgebase : Function :=
  {| name := "query_knowledgebase";
     description := "Query search engine for relevant information";
     parameters :=
       {| required_properties :=
            [ {| prop_name := "queries";
                 prop_type := ArrayOf TString;
                 prop_description := "List of queries to send to the search engine." |} ] |} |}.

Definition no_params : ModelParams :=
  {| temperature := None; top_p := None; n := None; max_tokens := None |}.

Definition fresh_client : LLM.world := {| calls := [] |}.

(** The double quote character. *)
Definition dq : string := String (Ascii.Ascii false true false false false true false false) EmptyString.

(** The payload of the mocked vendor of test_openai.py:215, a serialized
    mapping with the one key [key], and a payload with an empty array. *)
Definition wrong_payload : string :=
  "{" +:+ dq +:+ "key" +:+ dq +:+ ": " +:+ dq +:+ "value" +:+ dq +:+ "}".
Definition empty_queries_payload : string :=
  "{" +:+ dq +:+ "queries" +:+ dq +:+ ": []}".
Definition one_query_payload : string :=
  "{" +:+ dq +:+ "queries" +:+ dq +:+ ": [" +:+ dq +:+ "canopy" +:+ dq +:+ "]}".

(** A decoder that knows the payloads of the examples. *)
Definition example_loads (s : string) : option json :=
  if String.eqb s wrong_payload then Some (JObject {[ "key" := JString "value" ]})
  else if String.eqb s empty_queries_payload then Some (JObject {[ "queries" := JArray [] ]})
  else if String.eqb s one_query_payload then
    Some (JObject {[ "queries" := JArray [JString "canopy"] ]})
  else None.

Definition completion_with (payload : string) : ChatCompletion :=
  {| choices := [ {| message := {| tool_calls := [ {| arguments := payload |} ] |} |} ] |}.

(** test_openai.py:210-215: every call returns the same wrong payload. *)
Definition wrong_schema_create (log : list chat_request) (req : chat_request)
    : vendor_result ChatCompletion :=
  Returns (completion_with wrong_payload).

(** test_openai.py:198-200: every call raises. *)
Definition failing_create (log : list chat_request) (req : chat_request)
    : vendor_result ChatCompletion :=
  Raises "API call failed".

Definition empty_queries_create (log : list chat_request) (req : chat_request)
    : vendor_result ChatCompletion :=
  Returns (completion_with empty_queries_payload).

(** A vendor whose first answer has the wrong schema and whose later
    answers are right. *)
Definition second_try_create (log : list chat_request) (req : chat_request)
    : vendor_result ChatCompletion :=
  match log with
  | [] => Returns (completion_with wrong_payload)
  | _ => Returns (completion_with one_query_payload)
  end.

End Examples.

(** ** Further vocabulary for [rerank] *)

Module RerankerSpec.
Import Reranker.
Section Spec.

Context {Rest Client : Type}.

(** [req] is the request that [rerank] builds for the query result [q]
    from the store [h] (cohere.py:46-50): the query, the texts of the
    documents in their order, and the reranker's [top_n] and model. *)
Definition request_sent (self : CohereReranker Client)
    (h : list (KBDocChunkWithScore Rest)) (q : KBQueryResult)
    (req : rerank_request) : Prop :=
  req_query req = query q ∧
  Forall2 (λ a t, ∃ d, h !! a = Some d ∧ text d = t) (documents q) (req_documents req) ∧
  req_top_n req = _top_n self ∧
  req_model req = _model_name self.

(** Two documents that differ at most in [score]. *)
Definition same_but_score (d1 d2 : KBDocChunkWithScore Rest) : Prop :=
  text d1 = text d2 ∧ rest d1 = rest d2.

(** The outcome [x] of a later part of a run, seen after an earlier part
    that returned [acc]: a returned list comes after [acc], an exception
    stays the outcome. *)
Definition prepend (acc : list KBQueryResult)
    (x : world Rest * result (list KBQueryResult))
    : world Rest * result (list KBQueryResult) :=
  match x with
  | (w', Ok out) => (w', Ok (acc ++ out))
  | (w', Raise e) => (w', Raise e)
  end.

(** [i] is a position of [l] as Python counts them, from either end. *)
Definition in_range {A} (l : list A) (i : Z) : Prop :=
  - Z.of_nat (length l) <= i < Z.of_nat (length l).

(** All the document references of a list of query results, in order. *)
Definition all_documents (results : list KBQueryResult) : list addr :=
  concat (map documents results).

End Spec.
End RerankerSpec.

(** ** Further example vendors *)

Module MoreExamples.
Import Reranker Examples.

(** A vendor that answers every request, pointing at the first document
    when there is one, and once more, below any sensible threshold, at a
    position that does not exist. *)
Definition first_only (c : unit) (evs : list vendor_event) (req : rerank_request)
    : vendor_result (list RerankResult) :=
  match req_documents req with
  | [] => Returns []
  | _ :: _ =>
      Returns [ {| index := 0; relevance_score := 0.5%float |};
                {| index := 99; relevance_score := 0.0625%float |} ]
  end.

(** A vendor that answers the first request and raises on the later ones. *)
Definition fails_second (c : unit) (evs : list vendor_event) (req : rerank_request)
    : vendor_result (list RerankResult) :=
  match evs with
  | [] => Returns [ {| index := 0; relevance_score := 0.5%float |} ]
  | _ => Raises "rate limit"
  end.

(** A vendor whose only entry points past the documents. *)
Definition out_of_range (c : unit) (evs : list vendor_event) (req : rerank_request)
    : vendor_result (list RerankResult) :=
  Returns [ {| index := 2; relevance_score := 0.5%float |} ].

(** [store0] with other scores. *)
Definition store0' : Reranker.world nat :=
  {| heap := [with_score doc_a 0.5%float; with_score doc_b 0%float]; events := [] |}.

Definition q_first : KBQueryResult := {| query := "first"; documents := [0; 1]%nat |}.
Definition q_second : KBQueryResult := {| query := "second"; documents := [1]%nat |}.

(** What [rerank] with [fails_second] leaves after [q_first]. *)
Definition store_after_first : Reranker.world nat :=
  {| heap := [doc_a; doc_b; with_score doc_a 0.5%float];
     events := [ EvRerank {| req_query := "first"; req_documents := ["alpha"; "beta"];
                             req_top_n := 10; req_model := "rerank-english-v2.0" |} ] |}.

(** [store0] after the construction of a client. *)
Definition store_with_client : Reranker.world nat :=
  {| heap := [doc_a; doc_b]; events := [EvClient (Some "key")] |}.



Definition nan_reranker : CohereReranker unit :=
  {| _client := tt; _model_name := default_model_name;
     _top_n := default_top_n; _threshold := nan |}.

End MoreExamples.

(** ** Facts about the monad and about Python indexing *)

Ltac unfold_M :=
  unfold getitem in *;
  unfold mbind, mret, M_mbind, M_mret, M_bind, M_ret, raise in *.

Lemma py_index_last {A} (l : list A) (x : A) : py_index (l ++ [x]) (-1) = Some x.
Proof.
  unfold py_index. rewrite length_app. simpl length.
  change (0 <=? -1) with false. cbv iota.
  destruct (Z.leb_spec (- Z.of_nat (length l + 1)) (-1)); [|lia].
  replace (Z.to_nat (Z.of_nat (length l + 1) + -1)) with (length l + 0)%nat by lia.
  rewrite lookup_app_r by lia.
  by replace (length l + 0 - length l)%nat with 0%nat by lia.
Qed.

Lemma py_index_elem_of {A} (l : list A) (i : Z) (x : A) :
  py_index l i = Some x → x ∈ l.
Proof.
  unfold py_index. intros H.
  destruct (0 <=? i); [by eapply list_elem_of_lookup_2|].
  destruct (- Z.of_nat (length l) <=? i); [by eapply list_elem_of_lookup_2|done].
Qed.

Lemma py_index_in_range {A} (l : list A) (i : Z) :
  - Z.of_nat (length l) <= i < Z.of_nat (length l) → is_Some (py_index l i).
Proof.
  intros [Hlo Hhi]. unfold py_index.
  destruct (Z.leb_spec 0 i).
  - apply lookup_lt_is_Some. lia.
  - destruct (Z.leb_spec (- Z.of_nat (length l)) i); [|lia].
    apply lookup_lt_is_Some. lia.
Qed.

(** ** Facts about [CohereReranker] *)

Module RerankerFacts.
Import Reranker.
Section Facts.

Context {Rest Client : Type}.
Variable client_rerank :
  Client → list vendor_event → rerank_request → vendor_result (list RerankResult).

Implicit Types (w : world Rest) (self : CohereReranker Client).
Implicit Types (h : list (KBDocChunkWithScore Rest)) (d : KBDocChunkWithScore Rest).
Implicit Types (q : KBQueryResult) (r : RerankResult) (a : addr).

(** Reading the texts changes nothing. *)
Lemma comprehension_get_text_world (l : list addr) w :
  (comprehension get_text l w).1 = w.
Proof.
  revert w. induction l as [|a l IH]; intros w; [done|].
  simpl. unfold_M. unfold get_text at 1.
  destruct (heap w !! a) as [d|]; [|done].
  specialize (IH w). destruct (comprehension get_text l w) as [w1 [ts|e]]; simpl in *; by subst.
Qed.

(** When every reference is live, the texts are read off the store. *)
Lemma comprehension_get_text_Ok (l : list addr) w ts :
  (comprehension get_text l w).2 = Ok ts →
  Forall2 (λ a t, ∃ d, heap w !! a = Some d ∧ text d = t) l ts.
Proof.
  revert ts. induction l as [|a l IH]; intros ts; simpl.
  - unfold_M. simpl. intros [= <-]. constructor.
  - unfold_M. unfold get_text at 1.
    destruct (heap w !! a) as [d|] eqn:Hd; [|done].
    pose proof (comprehension_get_text_world l w) as Hw.
    destruct (comprehension get_text l w) as [w1 [ts'|e]]; simpl in *; [|done].
    intros [= <-]. constructor; [by exists d|]. by apply IH.
Qed.

Lemma comprehension_get_text_live (l : list addr) w :
  Forall (λ a, is_Some (heap w !! a)) l →
  ∃ ts, comprehension get_text l w = (w, Ok ts).
Proof.
  induction 1 as [|a l [d Hd] _ [ts IH]]; simpl.
  - by exists [].
  - exists (text d :: ts). unfold_M. unfold get_text at 1. by rewrite Hd, IH.
Qed.

(** One kept entry: the four statements of cohere.py:54-55 together append
    one object to the store, the copy with its score overwritten, and its
    address to [reranked_docs]. *)
Lemma rerank_docs_keep self q_docs r rs acc w a d :
  above_threshold self r = true →
  py_index q_docs (index r) = Some a →
  heap w !! a = Some d →
  rerank_docs self q_docs (r :: rs) acc w =
  rerank_docs self q_docs rs (acc ++ [length (heap w)])
    {| heap := heap w ++ [with_score d (relevance_score r)]; events := events w |}.
Proof.
  intros Hk Hi Hd. simpl. rewrite Hk. unfold_M. rewrite Hi.
  unfold deepcopy. rewrite Hd, py_index_last.
  unfold set_score. simpl.
  rewrite lookup_app_r by done. rewrite Nat.sub_diag. simpl.
  rewrite insert_app_r_alt by done. rewrite Nat.sub_diag. done.
Qed.

Lemma rerank_docs_skip self q_docs r rs acc w :
  above_threshold self r = false →
  rerank_docs self q_docs (r :: rs) acc w = rerank_docs self q_docs rs acc w.
Proof. intros Hk. simpl. by rewrite Hk. Qed.

Lemma rerank_docs_index_error self q_docs r rs acc w :
  above_threshold self r = true →
  py_index q_docs (index r) = None →
  rerank_docs self q_docs (r :: rs) acc w = (w, Raise IndexError).
Proof. intros Hk Hi. simpl. rewrite Hk. unfold_M. by rewrite Hi. Qed.

Lemma rerank_docs_dangling self q_docs r rs acc w a :
  above_threshold self r = true →
  py_index q_docs (index r) = Some a →
  heap w !! a = None →
  rerank_docs self q_docs (r :: rs) acc w = (w, Raise DanglingReference).
Proof.
  intros Hk Hi Hd. simpl. rewrite Hk. unfold_M. rewrite Hi.
  unfold deepcopy. by rewrite Hd.
Qed.

(** *** The store only grows *)

(** Whatever the inner loop does, returning or raising, the objects that
    existed before are where and what they were, and the vendor is not
    called. *)
Lemma rerank_docs_frame self q_docs rs acc w :
  heap w `prefix_of` heap (rerank_docs self q_docs rs acc w).1 ∧
  events (rerank_docs self q_docs rs acc w).1 = events w.
Proof.
  revert acc w. induction rs as [|r rs IH]; intros acc w; [done|].
  destruct (above_threshold self r) eqn:Hk.
  - destruct (py_index q_docs (index r)) as [a|] eqn:Hi.
    + destruct (heap w !! a) as [d|] eqn:Hd.
      * rewrite (rerank_docs_keep _ _ _ _ _ _ _ _ Hk Hi Hd).
        destruct (IH (acc ++ [length (heap w)])
          {| heap := heap w ++ [with_score d (relevance_score r)];
             events := events w |}) as [Hp He].
        split; [|done]. etrans; [|exact Hp]. by apply prefix_app_r.
      * by rewrite (rerank_docs_dangling _ _ _ _ _ _ _ Hk Hi Hd).
    + by rewrite (rerank_docs_index_error _ _ _ _ _ _ Hk Hi).
  - rewrite (rerank_docs_skip _ _ _ _ _ _ Hk). apply IH.
Qed.

(** The addresses the inner loop appends are those of objects it created. *)
Lemma rerank_docs_fresh self q_docs rs acc w w' out :
  rerank_docs self q_docs rs acc w = (w', Ok out) →
  ∃ new, out = acc ++ new ∧
         Forall (λ a', length (heap w) ≤ a' < length (heap w'))%nat new.
Proof.
  revert acc w. induction rs as [|r rs IH]; intros acc w.
  - simpl. unfold_M. intros [= <- <-]. exists []. by rewrite app_nil_r.
  - destruct (above_threshold self r) eqn:Hk.
    + destruct (py_index q_docs (index r)) as [a|] eqn:Hi;
        [|by rewrite (rerank_docs_index_error _ _ _ _ _ _ Hk Hi)].
      destruct (heap w !! a) as [d|] eqn:Hd;
        [|by rewrite (rerank_docs_dangling _ _ _ _ _ _ _ Hk Hi Hd)].
      rewrite (rerank_docs_keep _ _ _ _ _ _ _ _ Hk Hi Hd). intros Hrun.
      destruct (IH _ _ Hrun) as (new & -> & Hnew).
      pose proof (rerank_docs_frame self q_docs rs (acc ++ [length (heap w)])
        {| heap := heap w ++ [with_score d (relevance_score r)];
           events := events w |}) as [Hp%prefix_length _].
      rewrite Hrun in Hp. simpl in Hp. rewrite length_app in Hp. simpl in Hp.
      exists (length (heap w) :: new). split; [by rewrite <- app_assoc|].
      constructor; [lia|].
      eapply Forall_impl; [exact Hnew|]. simpl. intros a'. rewrite length_app. simpl. lia.
    + rewrite (rerank_docs_skip _ _ _ _ _ _ Hk). apply IH.
Qed.

Lemma rerank_loop_frame self results reranked w :
  heap w `prefix_of` heap (rerank_loop client_rerank self results reranked w).1 ∧
  events w `prefix_of` events (rerank_loop client_rerank self results reranked w).1.
Proof.
  revert reranked w. induction results as [|q results IH]; intros reranked w; [done|].
  simpl. unfold_M.
  pose proof (comprehension_get_text_world (documents q) w) as Hw.
  destruct (comprehension get_text (documents q) w) as [w0 [texts|e]];
    simpl in Hw; subst w0; [|done].
  unfold call_rerank.
  destruct (client_rerank (_client self) (events w)
              (request_of self (query q) texts)) as [response|msg]; simpl;
    [|split; [done|by apply prefix_app_r]].
  set (w1 := {| heap := heap w;
                events := events w ++ [EvRerank (request_of self (query q) texts)] |}).
  destruct (rerank_docs_frame self (documents q) response [] w1) as [Hp He].
  destruct (rerank_docs self (documents q) response [] w1) as [w2 [docs|e]];
    simpl in Hp, He.
  - destruct (IH (reranked ++ [{| query := query q; documents := docs |}]) w2)
      as [Hp' He'].
    split; [by etrans|]. etrans; [|exact He']. rewrite He. by apply prefix_app_r.
  - simpl. split; [done|]. rewrite He. by apply prefix_app_r.
Qed.

(** *** What the returned documents are *)

Lemma kept_copy_mono h h1 h2 q_docs r a' :
  h1 `prefix_of` h2 → kept_copy h h1 q_docs r a' → kept_copy h h2 q_docs r a'.
Proof.
  intros Hp (a & d & d' & Hi & Hd & Hc & Ht & Hr & Hs & Hf). exists a, d, d'.
  split_and!; eauto using prefix_lookup_Some.
Qed.

Lemma reranked_of_mono self h h1 h2 q_in q_out :
  h1 `prefix_of` h2 →
  reranked_of client_rerank self h h1 q_in q_out → reranked_of client_rerank self h h2 q_in q_out.
Proof.
  intros Hp (Hq & evs & texts & response & Ht & Hv & Hc).
  split; [done|]. exists evs, texts, response. split_and!; [done..|].
  eapply Forall2_impl; [exact Hc|]. eauto using kept_copy_mono.
Qed.

Lemma rerank_docs_Ok self q_docs h0 rs acc w w' out :
  h0 `prefix_of` heap w →
  Forall (λ a, is_Some (h0 !! a)) q_docs →
  rerank_docs self q_docs rs acc w = (w', Ok out) →
  ∃ new, out = acc ++ new ∧
         Forall2 (kept_copy h0 (heap w') q_docs)
           (List.filter (above_threshold self) rs) new.
Proof.
  intros Hp0 Hlive. revert acc w Hp0.
  induction rs as [|r rs IH]; intros acc w Hp0.
  - simpl. unfold_M. intros [= <- <-]. exists []. by rewrite app_nil_r.
  - simpl List.filter. destruct (above_threshold self r) eqn:Hk.
    + destruct (py_index q_docs (index r)) as [a|] eqn:Hi;
        [|by rewrite (rerank_docs_index_error _ _ _ _ _ _ Hk Hi)].
      assert (is_Some (h0 !! a)) as [d Hd0].
      { rewrite Forall_forall in Hlive. eauto using py_index_elem_of. }
      assert (heap w !! a = Some d) as Hd by eauto using prefix_lookup_Some.
      rewrite (rerank_docs_keep _ _ _ _ _ _ _ _ Hk Hi Hd). intros Hrun.
      set (w1 := {| heap := heap w ++ [with_score d (relevance_score r)];
                    events := events w |}) in *.
      destruct (IH (acc ++ [length (heap w)]) w1) as (new & -> & Hnew);
        [by apply prefix_app_r|done|].
      exists (length (heap w) :: new). split; [by rewrite <- app_assoc|].
      constructor; [|done].
      exists a, d, (with_score d (relevance_score r)).
      split_and!; [done|done| |done|done|done|by apply prefix_length].
      pose proof (rerank_docs_frame self q_docs rs (acc ++ [length (heap w)]) w1)
        as [Hp _].
      rewrite Hrun in Hp. eapply prefix_lookup_Some; [|exact Hp].
      simpl. rewrite lookup_app_r by done. by rewrite Nat.sub_diag.
    + rewrite (rerank_docs_skip _ _ _ _ _ _ Hk). by apply IH.
Qed.

Lemma texts_of_prefix h0 h (l : list addr) (ts : list string) :
  h0 `prefix_of` h →
  Forall (λ a, is_Some (h0 !! a)) l →
  Forall2 (λ a t, ∃ d, h !! a = Some d ∧ text d = t) l ts →
  Forall2 (λ a t, ∃ d, h0 !! a = Some d ∧ text d = t) l ts.
Proof.
  intros Hp Hlive Hts. induction Hts as [|a t l ts (d & Hd & Ht) _ IH]; [done|].
  inversion Hlive as [|? ? [d0 Hd0] Hl]; subst. constructor; [|by apply IH].
  exists d0. split; [done|].
  pose proof (prefix_lookup_Some _ _ _ _ Hd0 Hp). congruence.
Qed.

Lemma rerank_loop_Ok self h0 results reranked w w' out :
  h0 `prefix_of` heap w →
  live_results h0 results →
  rerank_loop client_rerank self results reranked w = (w', Ok out) →
  ∃ new, out = reranked ++ new ∧
         Forall2 (reranked_of client_rerank self h0 (heap w')) results new.
Proof.
  intros Hp0 Hlive. revert reranked w Hp0.
  induction Hlive as [|q results Hq _ IH]; intros reranked w Hp0.
  - simpl. unfold_M. intros [= <- <-]. exists []. by rewrite app_nil_r.
  - simpl. unfold_M.
    pose proof (comprehension_get_text_world (documents q) w) as Hw.
    pose proof (comprehension_get_text_Ok (documents q) w) as Hts.
    destruct (comprehension get_text (documents q) w) as [w0 [texts|e]];
      simpl in Hw, Hts; subst w0; [|done].
    specialize (Hts _ eq_refl).
    unfold call_rerank.
    destruct (client_rerank (_client self) (events w)
                (request_of self (query q) texts)) as [response|msg] eqn:Hv;
      simpl; [|done].
    set (w1 := {| heap := heap w;
                  events := events w ++ [EvRerank (request_of self (query q) texts)] |}).
    pose proof (rerank_docs_frame self (documents q) response [] w1) as [Hp1 _].
    destruct (rerank_docs self (documents q) response [] w1) as [w2 [docs|e]] eqn:Hin;
      [|done].
    simpl in Hp1. intros Hrun.
    destruct (rerank_docs_Ok self (documents q) h0 response [] w1 w2 docs Hp0 Hq Hin)
      as (docs' & Hdocs & Hkept).
    simpl in Hdocs. subst docs'.
    destruct (IH (reranked ++ [{| query := query q; documents := docs |}]) w2)
      as (new & -> & Hnew); [by etrans|done|].
    pose proof (rerank_loop_frame self results
      (reranked ++ [{| query := query q; documents := docs |}]) w2) as [Hp2 _].
    rewrite Hrun in Hp2. simpl in Hp2.
    exists ({| query := query q; documents := docs |} :: new).
    split; [by rewrite <- app_assoc|]. constructor; [|done].
    apply (reranked_of_mono _ _ _ _ _ _ Hp2).
    split; [done|]. exists (events w), texts, response. split_and!; [|done..].
    by eapply texts_of_prefix.
Qed.

(** *** The shape of the result *)

Lemma rerank_loop_queries self results reranked w w' out :
  rerank_loop client_rerank self results reranked w = (w', Ok out) →
  ∃ new, out = reranked ++ new ∧
         Forall2 (λ q_in q_out, query q_out = query q_in) results new.
Proof.
  revert reranked w. induction results as [|q results IH]; intros reranked w.
  - simpl. unfold_M. intros [= <- <-]. exists []. by rewrite app_nil_r.
  - simpl. unfold_M.
    destruct (comprehension get_text (documents q) w) as [w0 [texts|e]]; [|done].
    destruct (call_rerank client_rerank (_client self)
                (request_of self (query q) texts) w0) as [w1 [response|e]]; [|done].
    destruct (rerank_docs self (documents q) response [] w1) as [w2 [docs|e]]; [|done].
    intros Hrun. destruct (IH _ _ Hrun) as (new & -> & Hnew).
    exists ({| query := query q; documents := docs |} :: new).
    split; [by rewrite <- app_assoc|]. by constructor.
Qed.

Lemma rerank_loop_fresh self results reranked w w' out :
  rerank_loop client_rerank self results reranked w = (w', Ok out) →
  ∃ new, out = reranked ++ new ∧
         Forall (λ q', Forall (λ a', length (heap w) ≤ a')%nat (documents q')) new.
Proof.
  revert reranked w. induction results as [|q results IH]; intros reranked w.
  - simpl. unfold_M. intros [= <- <-]. exists []. by rewrite app_nil_r.
  - simpl. unfold_M.
    pose proof (comprehension_get_text_world (documents q) w) as Hw.
    destruct (comprehension get_text (documents q) w) as [w0 [texts|e]];
      simpl in Hw; subst w0; [|done].
    unfold call_rerank.
    destruct (client_rerank (_client self) (events w)
                (request_of self (query q) texts)) as [response|msg]; simpl; [|done].
    set (w1 := {| heap := heap w;
                  events := events w ++ [EvRerank (request_of self (query q) texts)] |}).
    pose proof (rerank_docs_frame self (documents q) response [] w1) as [Hp1%prefix_length _].
    destruct (rerank_docs self (documents q) response [] w1) as [w2 [docs|e]] eqn:Hin;
      [|done].
    simpl in Hp1. intros Hrun.
    destruct (rerank_docs_fresh _ _ _ _ _ _ _ Hin) as (docs' & Hdocs & Hfresh).
    simpl in Hdocs, Hfresh. subst docs'.
    destruct (IH _ _ Hrun) as (new & -> & Hnew).
    exists ({| query := query q; documents := docs |} :: new).
    split; [by rewrite <- app_assoc|]. constructor; simpl.
    + eapply Forall_impl; [exact Hfresh|]. simpl. lia.
    + eapply Forall_impl; [exact Hnew|]. simpl. intros q' Hq'.
      eapply Forall_impl; [exact Hq'|]. simpl. lia.
Qed.

(** *** Running to the end *)

(** The inner loop returns when the response points into the documents. *)
Lemma rerank_docs_returns self q_docs rs acc w :
  Forall (λ a, is_Some (heap w !! a)) q_docs →
  Forall (λ r, - Z.of_nat (length q_docs) <= index r < Z.of_nat (length q_docs)) rs →
  ∃ w' out, rerank_docs self q_docs rs acc w = (w', Ok out).
Proof.
  intros Hlive Hrs. revert acc w Hlive.
  induction Hrs as [|r rs Hr _ IH]; intros acc w Hlive; [by eexists _, _|].
  destruct (above_threshold self r) eqn:Hk.
  - destruct (py_index_in_range q_docs (index r) Hr) as [a Hi].
    assert (is_Some (heap w !! a)) as [d Hd].
    { rewrite Forall_forall in Hlive. eauto using py_index_elem_of. }
    rewrite (rerank_docs_keep _ _ _ _ _ _ _ _ Hk Hi Hd). apply IH. simpl.
    eapply Forall_impl; [exact Hlive|]. simpl. intros a0 [d0 Hd0].
    exists d0. by apply lookup_app_l_Some.
  - rewrite (rerank_docs_skip _ _ _ _ _ _ Hk). by apply IH.
Qed.

(** [rerank] returns on a well-formed input when the vendor answers every
    request with entries that point into the documents it was sent. *)
Lemma rerank_returns self results w :
  live_results (heap w) results →
  (∀ evs req, ∃ response,
      client_rerank (_client self) evs req = Returns response ∧
      Forall (λ r, - Z.of_nat (length (req_documents req)) <= index r
                   < Z.of_nat (length (req_documents req))) response) →
  ∃ w' out, rerank client_rerank self results w = (w', Ok out).
Proof.
  intros Hlive Hvendor. unfold rerank. generalize (@nil KBQueryResult) as reranked.
  revert w Hlive. induction results as [|q results IH]; intros w Hlive reranked;
    [by eexists _, _|].
  inversion Hlive as [|? ? Hq Hrest]; subst.
  simpl. unfold_M.
  destruct (comprehension_get_text_live _ _ Hq) as [texts Htexts].
  pose proof (comprehension_get_text_Ok (documents q) w texts) as Hlen.
  rewrite Htexts in *. specialize (Hlen eq_refl). apply Forall2_length in Hlen.
  unfold call_rerank.
  destruct (Hvendor (events w) (request_of self (query q) texts))
    as (response & -> & Hrange). simpl in *. rewrite <- Hlen in Hrange.
  set (w1 := {| heap := heap w;
                events := events w ++ [EvRerank (request_of self (query q) texts)] |}).
  destruct (rerank_docs_returns self (documents q) response [] w1 Hq Hrange)
    as (w2 & docs & Hin).
  pose proof (rerank_docs_frame self (documents q) response [] w1) as [Hp _].
  rewrite Hin in *. simpl in Hp. apply IH.
  eapply Forall_impl; [exact Hrest|]. simpl. intros q' Hq'.
  eapply Forall_impl; [exact Hq'|]. simpl. intros a [d Hd].
  exists d. by eapply prefix_lookup_Some.
Qed.

(** *** The claims about [rerank] *)

(** Read document by document: a document of the i-th output is a copy of a
    document of the i-th input, with the score the vendor gave, which
    reaches the threshold. *)
Lemma reranked_of_pointwise self h h' q_in q_out a' :
  reranked_of client_rerank self h h' q_in q_out →
  a' ∈ documents q_out →
  ∃ a d d', a ∈ documents q_in ∧ h !! a = Some d ∧ h' !! a' = Some d' ∧
            text d' = text d ∧ rest d' = rest d ∧
            PrimFloat.leb (_threshold self) (score d') = true ∧ (length h ≤ a')%nat.
Proof.
  intros (_ & evs & texts & response & _ & _ & Hkept) [j Hj]%list_elem_of_lookup.
  destruct (Forall2_lookup_r _ _ _ _ _ Hkept Hj)
    as (r & Hr%list_elem_of_lookup_2 & a & d & d' & Hi & Hd & Hc & Ht & Hrest & Hs & Hf).
  apply list_elem_of_In, List.filter_In in Hr as [_ Hr].
  exists a, d, d'. rewrite Hs. split_and!; eauto using py_index_elem_of.
Qed.


(** C9.  [rerank] writes only to objects it has created: whether it returns
    or raises, the store it leaves is the store it found followed by new
    objects, so every document the input refers to is what it was; and
    every document it returns is one of the new objects, not an object of
    the input. *)
Theorem rerank_leaves_input_unchanged self results w :
  (∃ fresh, heap (rerank client_rerank self results w).1 = heap w ++ fresh) ∧
  (∀ q a d, q ∈ results → a ∈ documents q → heap w !! a = Some d →
            heap (rerank client_rerank self results w).1 !! a = Some d) ∧
  (∀ out, (rerank client_rerank self results w).2 = Ok out →
          ∀ q' a', q' ∈ out → a' ∈ documents q' →
                   (length (heap w) ≤ a')%nat ∧ heap w !! a' = None).
Proof.
  pose proof (rerank_loop_frame self results [] w) as [Hp _].
  split_and!.
  - exact Hp.
  - intros q a d _ _ Hd. by eapply prefix_lookup_Some.
  - intros out Hout q' a' Hq' Ha'. unfold rerank in Hout.
    destruct (rerank_loop client_rerank self results [] w) as [w' r] eqn:Hrun.
    simpl in Hout. subst r.
    destruct (rerank_loop_fresh _ _ _ _ _ _ Hrun) as (new & -> & Hnew).
    simpl in Hq'. rewrite Forall_forall in Hnew. specialize (Hnew _ Hq').
    rewrite Forall_forall in Hnew. specialize (Hnew _ Ha').
    split; [done|]. by apply lookup_ge_None.
Qed.

(** C10.  Whenever [rerank] returns, the output has the length of the input
    and its i-th element carries the query string of the i-th input. *)
Theorem rerank_preserves_queries self results w w' out :
  rerank client_rerank self results w = (w', Ok out) →
  length out = length results ∧
  ∀ i q_in, results !! i = Some q_in →
            ∃ q_out, out !! i = Some q_out ∧ query q_out = query q_in.
Proof.
  intros Hrun. destruct (rerank_loop_queries _ _ _ _ _ _ Hrun) as (new & -> & Hnew).
  simpl. split; [symmetry; by eapply Forall2_length|].
  intros i q_in Hi. destruct (Forall2_lookup_l _ _ _ _ _ Hnew Hi) as (q_out & ? & ?).
  by exists q_out.
Qed.

(** *** The constructor *)

Variable cohere_Client : list vendor_event → option string → vendor_result Client.

(** C8, as amended.  Without the library the constructor raises the
    ImportError of cohere.py:32, a ConfigurationError with a message, and
    nothing is asked of the vendor; with the library the guard lets the
    construction through to the vendor's client constructor, which is
    called once: the reranker is built when that constructor returns, and
    what it raises is raised by the construction. *)
Theorem init_guard api_key model_name top_n threshold w :
  __init__ cohere_Client false api_key model_name top_n threshold w
    = (w, Raise (ImportError import_error_message)) ∧
  spec_error_kind (ImportError import_error_message) = Some ConfigurationError ∧
  import_error_message ≠ EmptyString ∧
  (∀ client, cohere_Client (events w) api_key = Returns client →
     __init__ cohere_Client true api_key model_name top_n threshold w
       = ({| heap := heap w; events := events w ++ [EvClient api_key] |},
          Ok {| _client := client; _model_name := model_name;
                _top_n := top_n; _threshold := threshold |})) ∧
  (∀ msg, cohere_Client (events w) api_key = Raises msg →
     __init__ cohere_Client true api_key model_name top_n threshold w
       = ({| heap := heap w; events := events w ++ [EvClient api_key] |},
          Raise (VendorException msg))).
Proof.
  split_and!; [done..| |].
  - intros client Hc. unfold __init__. simpl. unfold_M. unfold new_Client.
    by rewrite Hc.
  - intros msg Hc. unfold __init__. simpl. unfold_M. unfold new_Client.
    by rewrite Hc.
Qed.

End Facts.

(** *** The claims at the example store *)

Import Examples.

Lemma example_rerank_honours_top_n c evs req response :
  example_rerank c evs req = Returns response →
  Z.of_nat (length response) <= req_top_n req.
Proof.
  unfold example_rerank. destruct (Z.ltb_spec (req_top_n req) 0); [done|].
  intros [= <-]. rewrite length_take. lia.
Qed.

Lemma store0_live : live_results (heap store0) results0.
Proof. repeat constructor; by eexists. Qed.

Example rerank_example :
  rerank example_rerank reranker0 results0 store0 = (store1, Ok reranked0).
Proof. vm_compute. reflexivity. Qed.

(** The first document of the first input, before and after. *)
Example rerank_example_input_kept :
  heap store0 !! 0%nat = Some doc_a ∧ heap store1 !! 0%nat = Some doc_a ∧
  heap store1 !! 3%nat = Some (with_score doc_a 0.125%float).
Proof. done. Qed.

(** An attribute assignment through a second reference to an object is seen
    through the first: without the copy, the input would change. *)
Example set_score_is_in_place :
  (set_score 0%nat 0.125%float store0).1
  = {| heap := [with_score doc_a 0.125%float; doc_b]; events := [] |}.
Proof. reflexivity. Qed.

(** An entry that points outside the documents is an IndexError. *)
Example rerank_index_error :
  (rerank (λ _ _ _, Returns [ {| index := 2; relevance_score := 0.5%float |} ])
     reranker0 results0 store0).2 = Raise IndexError.
Proof. vm_compute. reflexivity. Qed.


Import MoreExamples.


Lemma rerank_preserves_queries_witness :
  length reranked0 = length results0 ∧
  ∀ i q_in, results0 !! i = Some q_in →
            ∃ q_out, reranked0 !! i = Some q_out ∧ query q_out = query q_in.
Proof.
  apply (rerank_preserves_queries example_rerank reranker0 results0 store0 store1
           reranked0).
  vm_compute. reflexivity.
Defined.

(** C8, the claim as stated fails: with the library present, a vendor
    client constructor that raises (here for want of an API key) makes the
    construction raise. *)
Lemma init_raises_with_library_present :
  __init__ example_Client true None default_model_name default_top_n
    default_threshold store0
  = ({| heap := heap store0; events := [EvClient None] |},
     Raise (VendorException "no API key provided")).
Proof. reflexivity. Qed.

Example init_example :
  __init__ example_Client true (Some "key") default_model_name default_top_n
    default_threshold store0
  = ({| heap := heap store0; events := [EvClient (Some "key")] |},
     Ok {| _client := tt; _model_name := default_model_name;
           _top_n := default_top_n; _threshold := default_threshold |}).
Proof. reflexivity. Qed.

End RerankerFacts.

(** ** Facts about the enforced function call *)

Module LLMFacts.
Import LLM.
Section Facts.

Variable create : list chat_request → chat_request → vendor_result ChatCompletion.
Variable json_loads : string → option json.

Implicit Types (w : world) (f : Function) (params : ModelParams).
Implicit Types (messages : list MessageBase) (m : gmap string json).

Lemma has_type_of_type t v : has_type t v = true → of_type t v.
Proof. destruct t, v; simpl; try done; intros _; constructor. Qed.

Lemma is_empty_nonempty_value v : is_empty v = false → nonempty_value v.
Proof.
  destruct v as [| | | |s|items|members]; simpl; try done.
  - by destruct s.
  - by destruct items.
  - intros Hsize%Nat.eqb_neq ->. by rewrite map_size_empty in Hsize.
Qed.

Lemma conforms_of_declared_type t v : conforms t v = true → of_declared_type t v.
Proof.
  destruct t as [t|t]; [apply has_type_of_type|].
  destruct v as [| | | | |items|]; try done.
  destruct items as [|item items]; [done|].
  intros H.
  change (forallb (λ x, has_type t x && negb (is_empty x)) (item :: items) = true) in H.
  eexists; split_and!; [done..|].
  apply Forall_forall. intros x Hx%list_elem_of_In. rewrite forallb_forall in H.
  apply H, andb_true_iff in Hx as [Ht He%negb_true_iff].
  split; [by apply has_type_of_type|by apply is_empty_nonempty_value].
Qed.

(** *** The validator *)

Lemma validate_Ok f instance m :
  validate f instance = Ok m →
  instance = JObject m ∧
  ∀ p, p ∈ required_properties (parameters f) →
       ∃ v, m !! prop_name p = Some v ∧ of_declared_type (prop_type p) v.
Proof.
  unfold validate. destruct instance as [| | | | | |m']; try done.
  destruct (List.find _ _) as [p0|] eqn:Hreq; [done|].
  destruct (List.find (λ p, negb (property_ok m' p)) _) as [p1|] eqn:Hty; [done|].
  intros [= <-]. split; [done|]. intros p Hp%list_elem_of_In.
  pose proof (List.find_none _ _ Hreq p Hp) as Hk.
  pose proof (List.find_none _ _ Hty p Hp) as Ho.
  simpl in Hk, Ho. unfold has_key in Hk. unfold property_ok in Ho.
  destruct (m' !! prop_name p) as [v|]; [|done].
  exists v. split; [done|]. apply conforms_of_declared_type.
  by destruct (conforms (prop_type p) v).
Qed.

Lemma validate_lacks_required f m :
  lacks_required f m →
  ∃ p, validate f (JObject m) = Raise (ValidationError (required_message (prop_name p))) ∧
       p ∈ required_properties (parameters f) ∧ m !! prop_name p = None.
Proof.
  intros (p & Hp%list_elem_of_In & Hm). unfold validate.
  destruct (List.find _ _) as [p0|] eqn:Hreq.
  - apply List.find_some in Hreq as [Hin Hk]. exists p0.
    split_and!; [done|by apply list_elem_of_In|].
    unfold has_key in Hk. by destruct (m !! prop_name p0).
  - pose proof (List.find_none _ _ Hreq p Hp) as Hk. simpl in Hk.
    unfold has_key in Hk. by rewrite Hm in Hk.
Qed.

(** *** One attempt *)

(** One attempt is one call to the vendor. *)
Lemma function_call_once_calls messages f params w :
  calls (function_call_once create json_loads messages f params w).1
  = calls w ++ [request_for messages f params].
Proof.
  unfold function_call_once, chat_completions_create, loads, lift_result. unfold_M.
  destruct (create _ _) as [c|msg]; simpl; [|done].
  destruct (py_index (choices c) 0) as [choice|]; [|done].
  destruct (py_index (tool_calls (message choice)) 0) as [tc|]; [|done].
  destruct (json_loads (arguments tc)) as [v|]; done.
Qed.

Lemma function_call_once_vendor_raises messages f params w msg :
  create (calls w) (request_for messages f params) = Raises msg →
  function_call_once create json_loads messages f params w
  = ({| calls := calls w ++ [request_for messages f params] |},
     Raise (VendorException msg)).
Proof.
  intros Hc. unfold function_call_once, chat_completions_create. unfold_M.
  by rewrite Hc.
Qed.

Lemma function_call_once_payload messages f params w c m :
  create (calls w) (request_for messages f params) = Returns c →
  payload_of json_loads c m →
  function_call_once create json_loads messages f params w
  = ({| calls := calls w ++ [request_for messages f params] |}, validate f (JObject m)).
Proof.
  intros Hc (choice & tc & Hch & Htc & Hm).
  unfold function_call_once, chat_completions_create, loads, lift_result. unfold_M.
  rewrite Hc. simpl. rewrite Hch, Htc, Hm. done.
Qed.

Lemma function_call_once_Ok messages f params w w' m :
  function_call_once create json_loads messages f params w = (w', Ok m) →
  ∃ instance, validate f instance = Ok m.
Proof.
  unfold function_call_once, chat_completions_create, loads, lift_result. unfold_M.
  destruct (create _ _) as [c|msg]; simpl; [|done].
  destruct (py_index (choices c) 0) as [choice|]; [|done].
  destruct (py_index (tool_calls (message choice)) 0) as [tc|]; [|done].
  destruct (json_loads (arguments tc)) as [v|]; [|done].
  intros [= _ Hv]. by exists v.
Qed.

(** *** The retry loop *)

(** A value returned by the loop was returned by a run of the body. *)
Lemma with_retries_Ok {A} retries (body : M world A) w w' a :
  with_retries retries body w = (w', Ok a) → ∃ w0, body w0 = (w', Ok a).
Proof.
  revert w. induction retries as [|k IH]; intros w; simpl.
  - destruct (body w) as [w1 [a1|e]] eqn:Hb; [|done]. intros [= <- <-]. by exists w.
  - destruct (body w) as [w1 [a1|e]] eqn:Hb.
    + intros [= <- <-]. by exists w.
    + destruct (retryable e); [apply IH|done].
Qed.

(** An error that is not retryable ends the loop at once. *)
Lemma with_retries_not_retryable {A} retries (body : M world A) w w' e :
  body w = (w', Raise e) → retryable e = false →
  with_retries retries body w = (w', Raise e).
Proof. intros Hb He. destruct retries; simpl; rewrite Hb; [done|]. by rewrite He. Qed.

(** A retryable error with retries left runs the body again. *)
Lemma with_retries_retry {A} retries (body : M world A) w w' e :
  body w = (w', Raise e) → retryable e = true →
  with_retries (S retries) body w = with_retries retries body w'.
Proof. intros Hb He. simpl. rewrite Hb. by rewrite He. Qed.

Lemma with_retries_last {A} (body : M world A) w w' e :
  body w = (w', Raise e) → with_retries 0 body w = (w', Raise e).
Proof. intros Hb. simpl. by rewrite Hb. Qed.

(** The loop never asks the vendor more than [S retries] times. *)
Lemma with_retries_calls_bound messages f params retries w :
  ∃ k, (1 ≤ k ≤ S retries)%nat ∧
       calls (with_retries retries
                (function_call_once create json_loads messages f params) w).1
       = calls w ++ replicate k (request_for messages f params).
Proof.
  revert w. induction retries as [|r IH]; intros w; simpl;
    pose proof (function_call_once_calls messages f params w) as Hc;
    destruct (function_call_once create json_loads messages f params w)
      as [w1 [m|e]]; simpl in Hc.
  - exists 1%nat. split; [lia|done].
  - exists 1%nat. split; [lia|done].
  - exists 1%nat. split; [lia|done].
  - destruct (retryable e).
    + destruct (IH w1) as (k & Hk & Hcalls). exists (S k). split; [lia|].
      rewrite Hcalls, Hc. by rewrite <- app_assoc.
    + exists 1%nat. split; [lia|done].
Qed.

(** *** The claims about [enforced_function_call] *)

(** C1.  When every answer of the vendor carries a payload that decodes to
    a mapping lacking a required property of the function, the call asks
    the vendor exactly three times and then raises the validation error (a
    SchemaValidationError) of the third payload, whose message is the name,
    between quotes, of a required property that this payload lacks,
    followed by [is a required property]. *)
Theorem enforced_function_call_exhausts_retries messages f params w :
  (∀ log, ∃ c m, create log (request_for messages f params) = Returns c ∧
                 payload_of json_loads c m ∧ lacks_required f m) →
  ∃ p c m,
    enforced_function_call create json_loads messages f params w
    = ({| calls := calls w ++ replicate 3 (request_for messages f params) |},
       Raise (ValidationError ("'" +:+ prop_name p +:+ "' is a required property"))) ∧
    spec_error_kind (ValidationError ("'" +:+ prop_name p +:+ "' is a required property"))
    = Some SchemaValidationError ∧
    p ∈ required_properties (parameters f) ∧
    create (calls w ++ replicate 2 (request_for messages f params))
           (request_for messages f params) = Returns c ∧
    payload_of json_loads c m ∧ m !! prop_name p = None.
Proof.
  intros Hvendor.
  set (req := request_for messages f params).
  assert (∀ w0, ∃ p c m,
    function_call_once create json_loads messages f params w0
    = ({| calls := calls w0 ++ [req] |},
       Raise (ValidationError (required_message (prop_name p)))) ∧
    p ∈ required_properties (parameters f) ∧
    create (calls w0) req = Returns c ∧ payload_of json_loads c m ∧
    m !! prop_name p = None)
    as Honce.
  { intros w0. destruct (Hvendor (calls w0)) as (c & m & Hc & Hpay & Hlack).
    destruct (validate_lacks_required f m Hlack) as (p & Hv & Hp & Hm).
    exists p, c, m. split_and!; [|done..].
    by rewrite (function_call_once_payload _ _ _ _ _ _ Hc Hpay), Hv. }
  unfold enforced_function_call. change (max_attempts - 1)%nat with 2%nat.
  destruct (Honce w) as (p1 & _ & _ & H1 & _).
  rewrite (with_retries_retry _ _ _ _ _ H1 eq_refl).
  destruct (Honce {| calls := calls w ++ [req] |}) as (p2 & _ & _ & H2 & _).
  simpl calls in H2. rewrite (with_retries_retry _ _ _ _ _ H2 eq_refl).
  destruct (Honce {| calls := (calls w ++ [req]) ++ [req] |})
    as (p3 & c & m & H3 & Hp & Hc & Hpay & Hm).
  simpl calls in *. rewrite (with_retries_last _ _ _ _ H3).
  exists p3, c, m. simpl replicate. rewrite <- !app_assoc in *. simpl in *.
  by split_and!.
Qed.

(** C3.  A mapping returned by the call holds every required property of
    the function, and the value of an array-typed one is a non-empty array
    whose elements are non-empty values of the declared item type
    (non-empty strings for an array of strings). *)
Theorem enforced_function_call_validated messages f params w w' m :
  enforced_function_call create json_loads messages f params w = (w', Ok m) →
  ∀ p, p ∈ required_properties (parameters f) →
       ∃ v, m !! prop_name p = Some v ∧ of_declared_type (prop_type p) v.
Proof.
  intros Hrun. unfold enforced_function_call in Hrun.
  apply with_retries_Ok in Hrun as [w0 Hrun].
  apply function_call_once_Ok in Hrun as [instance Hv].
  by apply validate_Ok in Hv as [_ Hv].
Qed.

(** C4.  When the vendor chat client raises on the first call, the call
    raises that error (an UpstreamError) after this one vendor call. *)
Theorem enforced_function_call_vendor_error messages f params w msg :
  create (calls w) (request_for messages f params) = Raises msg →
  enforced_function_call create json_loads messages f params w
  = ({| calls := calls w ++ [request_for messages f params] |},
     Raise (VendorException msg)) ∧
  spec_error_kind (VendorException msg) = Some UpstreamError.
Proof.
  intros Hc. split; [|done]. unfold enforced_function_call.
  apply with_retries_not_retryable; [|done].
  by apply function_call_once_vendor_raises.
Qed.

End Facts.

(** *** The claims at the fixtures of the tests *)

Import Examples.

(** test_openai.py:206-223, test_enforce_function_wrong_output_schema. *)
Example wrong_output_schema :
  enforced_function_call wrong_schema_create example_loads messages
    function_query_knowledgebase no_params fresh_client
  = ({| calls := replicate 3 (request_for messages function_query_knowledgebase no_params) |},
     Raise (ValidationError "'queries' is a required property")).
Proof. vm_compute. reflexivity. Qed.

(** A retry is a new round-trip, and a later answer may validate. *)
Example second_try_succeeds :
  enforced_function_call second_try_create example_loads messages
    function_query_knowledgebase no_params fresh_client
  = ({| calls := replicate 2 (request_for messages function_query_knowledgebase no_params) |},
     Ok {[ "queries" := JArray [JString "canopy"] ]}).
Proof. vm_compute. reflexivity. Qed.

Lemma enforced_function_call_exhausts_retries_witness :
  ∃ p c m,
    enforced_function_call wrong_schema_create example_loads messages
      function_query_knowledgebase no_params fresh_client
    = ({| calls := calls fresh_client ++
            replicate 3 (request_for messages function_query_knowledgebase no_params) |},
       Raise (ValidationError ("'" +:+ prop_name p +:+ "' is a required property"))) ∧
    spec_error_kind (ValidationError ("'" +:+ prop_name p +:+ "' is a required property"))
    = Some SchemaValidationError ∧
    p ∈ required_properties (parameters function_query_knowledgebase) ∧
    wrong_schema_create
      (calls fresh_client ++
         replicate 2 (request_for messages function_query_knowledgebase no_params))
      (request_for messages function_query_knowledgebase no_params) = Returns c ∧
    payload_of example_loads c m ∧ m !! prop_name p = None.
Proof.
  apply (enforced_function_call_exhausts_retries wrong_schema_create example_loads
           messages function_query_knowledgebase no_params fresh_client).
  intros log. exists (completion_with wrong_payload), {[ "key" := JString "value" ]}.
  split; [reflexivity|]. split.
  - eexists _, _. split_and!; reflexivity.
  - eexists. split; [apply list_elem_of_here|reflexivity].
Defined.

Lemma enforced_function_call_validated_witness :
  ∃ v, ({[ "queries" := JArray [JString "canopy"] ]} : gmap string json)
         !! "queries" = Some v ∧
       of_declared_type (ArrayOf TString) v.
Proof.
  apply (enforced_function_call_validated second_try_create example_loads messages
           function_query_knowledgebase no_params fresh_client _ _ second_try_succeeds
           {| prop_name := "queries"; prop_type := ArrayOf TString;
              prop_description := "List of queries to send to the search engine." |}).
  apply list_elem_of_here.
Defined.

(** A payload whose required array is empty does not validate: it is
    retried and then refused. *)
Example empty_array_is_refused :
  enforced_function_call empty_queries_create example_loads messages
    function_query_knowledgebase no_params fresh_client
  = ({| calls := replicate 3 (request_for messages function_query_knowledgebase no_params) |},
     Raise (ValidationError "'queries' does not satisfy its declaration")).
Proof. vm_compute. reflexivity. Qed.

Lemma enforced_function_call_vendor_error_witness :
  enforced_function_call failing_create example_loads messages
    function_query_knowledgebase no_params fresh_client
  = ({| calls := calls fresh_client ++
          [request_for messages function_query_knowledgebase no_params] |},
     Raise (VendorException "API call failed")) ∧
  spec_error_kind (VendorException "API call failed") = Some UpstreamError.
Proof.
  apply (enforced_function_call_vendor_error failing_create example_loads messages
           function_query_knowledgebase no_params fresh_client "API call failed").
  reflexivity.
Defined.

End LLMFacts.

(** ** More about [rerank]: calls, errors, composition *)

Module RerankerCoverage.
Import Reranker RerankerSpec RerankerFacts.
Section Coverage.

Context {Rest Client : Type}.
Variable client_rerank :
  Client → list vendor_event → rerank_request → vendor_result (list RerankResult).

Implicit Types (w : world Rest) (self : CohereReranker Client).
Implicit Types (h : list (KBDocChunkWithScore Rest)) (d : KBDocChunkWithScore Rest).
Implicit Types (q : KBQueryResult) (r : RerankResult) (a : addr).

(** *** Sequencing *)

(** The accumulator of the outer loop is only ever appended to. *)
Lemma rerank_loop_acc self results acc w :
  rerank_loop client_rerank self results acc w
  = prepend acc (rerank_loop client_rerank self results [] w).
Proof.
  revert acc w. induction results as [|q results IH]; intros acc w.
  - simpl. unfold_M. simpl. by rewrite app_nil_r.
  - simpl. unfold_M.
    destruct (comprehension get_text (documents q) w) as [w0 [texts|e]]; [|done].
    destruct (call_rerank client_rerank (_client self)
                (request_of self (query q) texts) w0) as [w1 [response|e]]; [|done].
    destruct (rerank_docs self (documents q) response [] w1) as [w2 [docs|e]]; [|done].
    rewrite (IH (acc ++ _)), (IH [_]).
    destruct (rerank_loop client_rerank self results [] w2) as [w3 [out|e]]; simpl; [|done].
    by rewrite <- app_assoc.
Qed.

Lemma rerank_cons self q results w :
  rerank client_rerank self (q :: results) w
  = match rerank client_rerank self [q] w with
    | (w1, Ok out1) => prepend out1 (rerank client_rerank self results w1)
    | (w1, Raise e) => (w1, Raise e)
    end.
Proof.
  unfold rerank. simpl. unfold_M.
  destruct (comprehension get_text (documents q) w) as [w0 [texts|e]]; [|done].
  destruct (call_rerank client_rerank (_client self)
              (request_of self (query q) texts) w0) as [w1 [response|e]]; [|done].
  destruct (rerank_docs self (documents q) response [] w1) as [w2 [docs|e]]; [|done].
  simpl. apply rerank_loop_acc.
Qed.

Lemma prepend_nil (x : world Rest * result (list KBQueryResult)) : prepend [] x = x.
Proof. by destruct x as [w [out|e]]. Qed.

Lemma prepend_prepend (o1 o2 : list KBQueryResult)
    (x : world Rest * result (list KBQueryResult)) :
  prepend o1 (prepend o2 x) = prepend (o1 ++ o2) x.
Proof. destruct x as [w [out|e]]; simpl; [|done]. by rewrite app_assoc. Qed.

Lemma rerank_app_eq self results1 results2 w :
  rerank client_rerank self (results1 ++ results2) w
  = match rerank client_rerank self results1 w with
    | (w1, Ok out1) => prepend out1 (rerank client_rerank self results2 w1)
    | (w1, Raise e) => (w1, Raise e)
    end.
Proof.
  revert w. induction results1 as [|q results1 IH]; intros w.
  - simpl. change (rerank client_rerank self [] w) with (w, @Ok (list KBQueryResult) []).
    by rewrite prepend_nil.
  - rewrite <- app_comm_cons, (rerank_cons self q (results1 ++ results2)),
      (rerank_cons self q results1).
    destruct (rerank client_rerank self [q] w) as [w1 [out1|e]]; [|done].
    rewrite IH.
    destruct (rerank client_rerank self results1 w1) as [w2 [out2|e]]; simpl; [|done].
    by rewrite prepend_prepend.
Qed.

(** X1.  Reranking a list made of two parts is reranking the first part
    and then, from the store and the vendor history this leaves, the
    second: the outputs are concatenated, the first exception raised is
    the outcome, and after an exception in the first part nothing of the
    second part is done. *)
Theorem rerank_app self results1 results2 w :
  (∀ w1 out1 w2 out2,
      rerank client_rerank self results1 w = (w1, Ok out1) →
      rerank client_rerank self results2 w1 = (w2, Ok out2) →
      rerank client_rerank self (results1 ++ results2) w = (w2, Ok (out1 ++ out2))) ∧
  (∀ w1 out1 w2 e,
      rerank client_rerank self results1 w = (w1, Ok out1) →
      rerank client_rerank self results2 w1 = (w2, Raise e) →
      rerank client_rerank self (results1 ++ results2) w = (w2, Raise e)) ∧
  (∀ w1 e,
      rerank client_rerank self results1 w = (w1, Raise e) →
      rerank client_rerank self (results1 ++ results2) w = (w1, Raise e)).
Proof.
  split_and!.
  - intros w1 out1 w2 out2 H1 H2. by rewrite rerank_app_eq, H1, H2.
  - intros w1 out1 w2 e H1 H2. by rewrite rerank_app_eq, H1, H2.
  - intros w1 e H1. by rewrite rerank_app_eq, H1.
Qed.

(** *** One query result *)

Lemma get_texts (l : list addr) (ts : list string) w :
  Forall2 (λ a t, ∃ d, heap w !! a = Some d ∧ text d = t) l ts →
  comprehension get_text l w = (w, Ok ts).
Proof.
  induction 1 as [|a t l ts (d & Hd & <-) _ IH]; [done|].
  simpl. unfold_M. unfold get_text at 1. by rewrite Hd, IH.
Qed.

Lemma rerank_one self q w texts :
  Forall2 (λ a t, ∃ d, heap w !! a = Some d ∧ text d = t) (documents q) texts →
  rerank client_rerank self [q] w
  = match client_rerank (_client self) (events w) (request_of self (query q) texts) with
    | Returns response =>
        match rerank_docs self (documents q) response []
                {| heap := heap w;
                   events := events w ++ [EvRerank (request_of self (query q) texts)] |}
        with
        | (w2, Ok docs) => (w2, Ok [{| query := query q; documents := docs |}])
        | (w2, Raise e) => (w2, Raise e)
        end
    | Raises msg =>
        ({| heap := heap w;
            events := events w ++ [EvRerank (request_of self (query q) texts)] |},
         Raise (VendorException msg))
    end.
Proof.
  intros Hts. unfold rerank. simpl. unfold_M. rewrite (get_texts _ _ _ Hts).
  unfold call_rerank.
  destruct (client_rerank _ _ _) as [response|msg]; simpl; [|done].
  by destruct (rerank_docs _ _ _ _ _) as [w2 [docs|e]].
Qed.

(** X2.  When the vendor raises on the request of one query result, after
    the query results before it went through, [rerank] raises that error:
    the failed request is the last thing asked of the vendor, the later
    query results are never sent, and what the earlier ones gave is not
    returned. *)
Theorem rerank_vendor_error self before q after w w1 out1 texts msg :
  rerank client_rerank self before w = (w1, Ok out1) →
  Forall2 (λ a t, ∃ d, heap w1 !! a = Some d ∧ text d = t) (documents q) texts →
  client_rerank (_client self) (events w1) (request_of self (query q) texts)
    = Raises msg →
  rerank client_rerank self (before ++ q :: after) w
  = ({| heap := heap w1;
        events := events w1 ++ [EvRerank (request_of self (query q) texts)] |},
     Raise (VendorException msg)).
Proof.
  intros Hbefore Hts Hv.
  rewrite rerank_app_eq, Hbefore, rerank_cons, (rerank_one _ _ _ _ Hts), Hv. done.
Qed.

(** *** The entries of one response *)

Lemma py_index_out_of_range {A} (l : list A) (i : Z) :
  ¬ in_range l i → py_index l i = None.
Proof.
  unfold in_range, py_index. intros Hout.
  destruct (Z.leb_spec 0 i).
  - apply lookup_ge_None. lia.
  - destruct (Z.leb_spec (- Z.of_nat (length l)) i); [lia|done].
Qed.

(** The inner loop over two runs of entries is the loop over the first,
    then over the second. *)
Lemma rerank_docs_app self q_docs rs1 rs2 acc w :
  rerank_docs self q_docs (rs1 ++ rs2) acc w
  = match rerank_docs self q_docs rs1 acc w with
    | (w1, Ok acc1) => rerank_docs self q_docs rs2 acc1 w1
    | (w1, Raise e) => (w1, Raise e)
    end.
Proof.
  revert acc w. induction rs1 as [|r rs1 IH]; intros acc w; [done|].
  rewrite <- app_comm_cons.
  destruct (above_threshold self r) eqn:Hk.
  - destruct (py_index q_docs (index r)) as [a|] eqn:Hi.
    + destruct (heap w !! a) as [d|] eqn:Hd.
      * rewrite !(rerank_docs_keep _ _ _ _ _ _ _ _ Hk Hi Hd). apply IH.
      * by rewrite !(rerank_docs_dangling _ _ _ _ _ _ _ Hk Hi Hd).
    + by rewrite !(rerank_docs_index_error _ _ _ _ _ _ Hk Hi).
  - rewrite !(rerank_docs_skip _ _ _ _ _ _ Hk). apply IH.
Qed.

(** The inner loop returns as soon as the entries it keeps point into the
    documents; it does not look at the index of an entry it drops. *)
Lemma rerank_docs_returns_kept self q_docs rs acc w :
  Forall (λ a, is_Some (heap w !! a)) q_docs →
  Forall (λ r, above_threshold self r = true → in_range q_docs (index r)) rs →
  ∃ w' out, rerank_docs self q_docs rs acc w = (w', Ok out).
Proof.
  intros Hlive Hrs. revert acc w Hlive.
  induction Hrs as [|r rs Hr _ IH]; intros acc w Hlive; [by eexists _, _|].
  destruct (above_threshold self r) eqn:Hk.
  - destruct (py_index_in_range q_docs (index r) (Hr eq_refl)) as [a Hi].
    assert (is_Some (heap w !! a)) as [d Hd].
    { rewrite Forall_forall in Hlive. eauto using py_index_elem_of. }
    rewrite (rerank_docs_keep _ _ _ _ _ _ _ _ Hk Hi Hd). apply IH. simpl.
    eapply Forall_impl; [exact Hlive|]. simpl. intros a0 [d0 Hd0].
    exists d0. by apply lookup_app_l_Some.
  - rewrite (rerank_docs_skip _ _ _ _ _ _ Hk). by apply IH.
Qed.

Lemma texts_live (l : list addr) (ts : list string) h :
  Forall2 (λ a t, ∃ d, h !! a = Some d ∧ text d = t) l ts →
  Forall (λ a, is_Some (h !! a)) l.
Proof. induction 1 as [|a t l ts (d & Hd & _) _ IH]; constructor; eauto. Qed.

Lemma live_texts (l : list addr) h :
  Forall (λ a, is_Some (h !! a)) l →
  ∃ ts, Forall2 (λ a t, ∃ d, h !! a = Some d ∧ text d = t) l ts.
Proof.
  induction 1 as [|a l [d Hd] _ [ts IH]]; [by exists []|].
  exists (text d :: ts). constructor; eauto.
Qed.

(** X3.  An entry of the vendor's response that reaches the threshold and
    points outside the documents of its query result, in either direction,
    makes [rerank] raise IndexError, provided the entries before it that
    reach the threshold point inside.  The request of that query result is
    the last one sent, and nothing is returned. *)
Theorem rerank_index_out_of_range self before q after w w1 out1 texts rs1 r rs2 :
  rerank client_rerank self before w = (w1, Ok out1) →
  Forall2 (λ a t, ∃ d, heap w1 !! a = Some d ∧ text d = t) (documents q) texts →
  client_rerank (_client self) (events w1) (request_of self (query q) texts)
    = Returns (rs1 ++ r :: rs2) →
  Forall (λ r', above_threshold self r' = true → in_range (documents q) (index r')) rs1 →
  above_threshold self r = true →
  ¬ in_range (documents q) (index r) →
  (rerank client_rerank self (before ++ q :: after) w).2 = Raise IndexError ∧
  events (rerank client_rerank self (before ++ q :: after) w).1
  = events w1 ++ [EvRerank (request_of self (query q) texts)].
Proof.
  intros Hbefore Hts Hv Hrs1 Hk Hout.
  rewrite rerank_app_eq, Hbefore, rerank_cons, (rerank_one _ _ _ _ Hts), Hv.
  rewrite rerank_docs_app.
  set (w2 := {| heap := heap w1;
                events := events w1 ++ [EvRerank (request_of self (query q) texts)] |}).
  destruct (rerank_docs_returns_kept self (documents q) rs1 [] w2
              (texts_live _ _ _ Hts) Hrs1) as (w3 & acc & Hrun1).
  pose proof (rerank_docs_frame self (documents q) rs1 [] w2) as [_ Hev].
  rewrite Hrun1 in *. simpl in Hev.
  rewrite (rerank_docs_index_error _ _ _ _ _ _ Hk (py_index_out_of_range _ _ Hout)).
  done.
Qed.

(** X4.  [rerank] returns, whatever the input whose references are live,
    when the vendor answers every request and the entries of its answers
    that reach the threshold point into the documents it was sent; an
    entry below the threshold may carry any index. *)
Theorem rerank_returns_when_kept_in_range self results w :
  live_results (heap w) results →
  (∀ evs req, ∃ response,
      client_rerank (_client self) evs req = Returns response ∧
      Forall (λ r, above_threshold self r = true →
                   in_range (req_documents req) (index r)) response) →
  ∃ w' out, rerank client_rerank self results w = (w', Ok out).
Proof.
  intros Hlive Hvendor. revert w Hlive.
  induction results as [|q results IH]; intros w Hlive; [by eexists _, _|].
  inversion Hlive as [|? ? Hq Hrest]; subst.
  destruct (live_texts _ _ Hq) as [texts Hts].
  rewrite rerank_cons, (rerank_one _ _ _ _ Hts).
  destruct (Hvendor (events w) (request_of self (query q) texts))
    as (response & -> & Hrange). simpl in Hrange.
  set (w1 := {| heap := heap w;
                events := events w ++ [EvRerank (request_of self (query q) texts)] |}).
  assert (Forall (λ r, above_threshold self r = true →
                       in_range (documents q) (index r)) response) as Hrange'.
  { eapply Forall_impl; [exact Hrange|]. simpl. unfold in_range.
    by rewrite (Forall2_length _ _ _ Hts). }
  destruct (rerank_docs_returns_kept self (documents q) response [] w1 Hq Hrange')
    as (w2 & docs & Hin).
  pose proof (rerank_docs_frame self (documents q) response [] w1) as [Hp _].
  rewrite Hin in *. simpl in Hp.
  destruct (IH w2) as (w3 & out & ->); [|by eexists _, _].
  eapply Forall_impl; [exact Hrest|]. simpl. intros q' Hq'.
  eapply Forall_impl; [exact Hq'|]. simpl. intros a [d Hd].
  exists d. by eapply prefix_lookup_Some.
Qed.

(** *** What is asked of the vendor *)

(** X5.  Whether it returns or raises, [rerank] asks the vendor nothing but
    reranking, at most once per query result; and when it returns, exactly
    once per query result. *)
Theorem rerank_calls_bound self results w :
  ∃ reqs,
    events (rerank client_rerank self results w).1 = events w ++ map EvRerank reqs ∧
    (length reqs ≤ length results)%nat ∧
    (∀ out, (rerank client_rerank self results w).2 = Ok out →
            length reqs = length results).
Proof.
  unfold rerank. generalize (@nil KBQueryResult) as acc.
  revert w. induction results as [|q results IH]; intros w acc.
  - exists []. simpl. by rewrite app_nil_r.
  - simpl. unfold_M.
    pose proof (comprehension_get_text_world (documents q) w) as Hw.
    destruct (comprehension get_text (documents q) w) as [w0 [texts|e]];
      simpl in Hw; subst w0.
    2:{ exists []. simpl. rewrite app_nil_r. split_and!; [done|lia|done]. }
    unfold call_rerank.
    set (req := request_of self (query q) texts).
    destruct (client_rerank (_client self) (events w) req) as [response|msg]; simpl.
    2:{ exists [req]. simpl. split_and!; [done|lia|done]. }
    set (w1 := {| heap := heap w; events := events w ++ [EvRerank req] |}).
    pose proof (rerank_docs_frame self (documents q) response [] w1) as [_ Hev].
    destruct (rerank_docs self (documents q) response [] w1) as [w2 [docs|e]];
      simpl in Hev.
    2:{ exists [req]. simpl. rewrite Hev. split_and!; [done|lia|done]. }
    destruct (IH w2 (acc ++ [{| query := query q; documents := docs |}]))
      as (reqs & Hreqs & Hle & Heq).
    exists (req :: reqs). rewrite Hreqs, Hev. simpl. rewrite <- app_assoc.
    split_and!; [done|lia|]. intros out Hout. by rewrite (Heq out Hout).
Qed.

Lemma request_sent_prefix self h0 h results (reqs : list rerank_request) :
  h0 `prefix_of` h →
  live_results h0 results →
  Forall2 (request_sent self h) results reqs →
  Forall2 (request_sent self h0) results reqs.
Proof.
  intros Hp Hlive Hsent.
  induction Hsent as [|q req results reqs (Hq & Hts & Hn & Hm) _ IH]; [done|].
  inversion Hlive as [|? ? Hlq Hrest]; subst.
  constructor; [|by apply IH].
  split_and!; [done| |done..]. by eapply texts_of_prefix.
Qed.

(** X6.  When [rerank] returns on an input whose references are live, the
    requests it has sent are, in the order of the input, one per query
    result, each with that result's query, the texts of its documents in
    their order, and the reranker's [top_n] and model name. *)
Theorem rerank_requests self results w w' out :
  live_results (heap w) results →
  rerank client_rerank self results w = (w', Ok out) →
  ∃ reqs, events w' = events w ++ map EvRerank reqs ∧
          Forall2 (request_sent self (heap w)) results reqs.
Proof.
  intros Hlive. revert w w' out Hlive.
  induction results as [|q results IH]; intros w w' out Hlive.
  - intros [= <- <-]. exists []. simpl. by rewrite app_nil_r.
  - inversion Hlive as [|? ? Hq Hrest]; subst.
    destruct (live_texts _ _ Hq) as [texts Hts].
    rewrite rerank_cons, (rerank_one _ _ _ _ Hts).
    set (req := request_of self (query q) texts).
    destruct (client_rerank (_client self) (events w) req) as [response|msg]; [|done].
    set (w1 := {| heap := heap w; events := events w ++ [EvRerank req] |}).
    pose proof (rerank_docs_frame self (documents q) response [] w1) as [Hp Hev].
    destruct (rerank_docs self (documents q) response [] w1) as [w2 [docs|e]];
      simpl in Hp, Hev; [|done].
    destruct (rerank client_rerank self results w2) as [w3 [out'|e]] eqn:Hrest';
      simpl; [|done].
    intros [= <- <-].
    assert (live_results (heap w2) results) as Hlive2.
    { eapply Forall_impl; [exact Hrest|]. simpl. intros q' Hq'.
      eapply Forall_impl; [exact Hq'|]. simpl. intros a [d Hd].
      exists d. by eapply prefix_lookup_Some. }
    destruct (IH _ _ _ Hlive2 Hrest') as (reqs & Hreqs & Hsent).
    exists (req :: reqs). rewrite Hreqs, Hev. simpl. rewrite <- app_assoc.
    split; [done|]. constructor; [done|].
    by eapply request_sent_prefix.
Qed.

(** *** The objects that are created *)

Lemma rerank_docs_seq self q_docs rs acc w w' out :
  rerank_docs self q_docs rs acc w = (w', Ok out) →
  ∃ k, out = acc ++ seq (length (heap w)) k ∧
       length (heap w') = (length (heap w) + k)%nat.
Proof.
  revert acc w. induction rs as [|r rs IH]; intros acc w.
  - simpl. unfold_M. intros [= <- <-]. exists 0%nat. simpl. by rewrite app_nil_r.
  - destruct (above_threshold self r) eqn:Hk.
    + destruct (py_index q_docs (index r)) as [a|] eqn:Hi;
        [|by rewrite (rerank_docs_index_error _ _ _ _ _ _ Hk Hi)].
      destruct (heap w !! a) as [d|] eqn:Hd;
        [|by rewrite (rerank_docs_dangling _ _ _ _ _ _ _ Hk Hi Hd)].
      rewrite (rerank_docs_keep _ _ _ _ _ _ _ _ Hk Hi Hd). intros Hrun.
      destruct (IH _ _ Hrun) as (k & -> & Hlen). simpl in Hlen.
      rewrite length_app in Hlen. simpl in Hlen.
      exists (S k). simpl. rewrite length_app. simpl.
      rewrite <- app_assoc. simpl. split; [|lia].
      by replace (length (heap w) + 1)%nat with (S (length (heap w))) by lia.
    + rewrite (rerank_docs_skip _ _ _ _ _ _ Hk). apply IH.
Qed.

Lemma all_documents_app (l1 l2 : list KBQueryResult) :
  all_documents (l1 ++ l2) = all_documents l1 ++ all_documents l2.
Proof. unfold all_documents. by rewrite map_app, concat_app. Qed.

Lemma rerank_loop_seq self results acc w w' out :
  rerank_loop client_rerank self results acc w = (w', Ok out) →
  ∃ new k, out = acc ++ new ∧
           all_documents new = seq (length (heap w)) k ∧
           length (heap w') = (length (heap w) + k)%nat.
Proof.
  revert acc w. induction results as [|q results IH]; intros acc w.
  - simpl. unfold_M. intros [= <- <-]. exists [], 0%nat. by rewrite app_nil_r.
  - simpl. unfold_M.
    pose proof (comprehension_get_text_world (documents q) w) as Hw.
    destruct (comprehension get_text (documents q) w) as [w0 [texts|e]];
      simpl in Hw; subst w0; [|done].
    unfold call_rerank.
    destruct (client_rerank (_client self) (events w)
                (request_of self (query q) texts)) as [response|msg]; simpl; [|done].
    set (w1 := {| heap := heap w;
                  events := events w ++ [EvRerank (request_of self (query q) texts)] |}).
    destruct (rerank_docs self (documents q) response [] w1) as [w2 [docs|e]] eqn:Hin;
      [|done].
    intros Hrun.
    destruct (rerank_docs_seq _ _ _ _ _ _ _ Hin) as (k1 & Hdocs & Hlen1).
    simpl in Hdocs, Hlen1. subst docs.
    destruct (IH _ _ Hrun) as (new & k2 & -> & Hnew & Hlen2).
    exists ({| query := query q; documents := seq (length (heap w)) k1 |} :: new),
      (k1 + k2)%nat.
    split_and!; [by rewrite <- app_assoc| |lia].
    unfold all_documents in *. simpl. rewrite Hnew, Hlen1. by rewrite seq_app.
Qed.

Lemma rerank_seq self results w w' out :
  rerank client_rerank self results w = (w', Ok out) →
  ∃ k, all_documents out = seq (length (heap w)) k ∧
       length (heap w') = (length (heap w) + k)%nat.
Proof.
  intros Hrun. destruct (rerank_loop_seq _ _ _ _ _ _ Hrun) as (new & k & -> & Hnew & Hlen).
  by exists k.
Qed.

(** X7.  No two of the documents that [rerank] returns, taken over all its
    outputs, are the same object, also when the vendor names one document
    twice: every kept entry has a copy of its own. *)
Theorem rerank_returns_distinct_objects self results w w' out :
  rerank client_rerank self results w = (w', Ok out) →
  NoDup (all_documents out).
Proof.
  intros Hrun. destruct (rerank_seq _ _ _ _ _ Hrun) as (k & Hnew & Hlen).
  rewrite Hnew. apply NoDup_seq.
Qed.

(** X8.  Liveness of references is kept: after [rerank] returns, every
    reference of its output is live in the store it leaves, and so is
    every reference of the input that was live before.  The output of one
    reranker is thus a well-formed input for another. *)
Theorem rerank_keeps_references_live self results w w' out :
  rerank client_rerank self results w = (w', Ok out) →
  live_results (heap w') out ∧
  (live_results (heap w) results → live_results (heap w') results).
Proof.
  intros Hrun.
  destruct (rerank_seq _ _ _ _ _ Hrun) as (k & Hseq & Hlen).
  split.
  - apply Forall_forall. intros q' Hq'. apply Forall_forall. intros a' Ha'.
    apply lookup_lt_is_Some.
    assert (a' ∈ all_documents out) as Hin.
    { unfold all_documents. apply list_elem_of_In, in_concat.
      exists (documents q'). split; [|by apply list_elem_of_In].
      apply in_map. by apply list_elem_of_In. }
    rewrite Hseq in Hin. apply elem_of_seq in Hin. lia.
  - pose proof (rerank_loop_frame client_rerank self results [] w) as [Hp _].
    unfold rerank in Hrun. rewrite Hrun in Hp. simpl in Hp.
    intros Hlive. eapply Forall_impl; [exact Hlive|]. simpl. intros q' Hq'.
    eapply Forall_impl; [exact Hq'|]. simpl. intros a [d Hd].
    exists d. by eapply prefix_lookup_Some.
Qed.

(** *** Scores that are not numbers *)

Lemma leb_nan_l (x : float) : PrimFloat.leb nan x = false.
Proof. rewrite FloatAxioms.leb_spec. reflexivity. Qed.

Lemma leb_nan_r (x : float) : PrimFloat.leb x nan = false.
Proof.
  rewrite FloatAxioms.leb_spec. unfold SpecFloat.SFleb, SpecFloat.SFcompare. cbn.
  by destruct (Prim2SF x).
Qed.

Lemma rerank_docs_nan_threshold self q_docs rs acc w :
  _threshold self = nan → rerank_docs self q_docs rs acc w = (w, Ok acc).
Proof.
  intros Hnan. induction rs as [|r rs IH]; [done|].
  rewrite rerank_docs_skip; [done|]. unfold above_threshold. rewrite Hnan.
  apply leb_nan_l.
Qed.

(** X9.  The comparison of cohere.py:53 is false when either side is NaN.
    A reranker whose threshold is NaN therefore keeps nothing: it creates
    no object, and every query result it returns has no documents. *)
Theorem rerank_nan_threshold_keeps_nothing self results w :
  _threshold self = nan →
  heap (rerank client_rerank self results w).1 = heap w ∧
  ∀ out, (rerank client_rerank self results w).2 = Ok out →
         Forall (λ q_out, documents q_out = []) out.
Proof.
  intros Hnan. revert w. induction results as [|q results IH]; intros w.
  - split; [done|]. intros out [= <-]. constructor.
  - rewrite rerank_cons. unfold rerank at 1 3. simpl. unfold_M.
    pose proof (comprehension_get_text_world (documents q) w) as Hw.
    destruct (comprehension get_text (documents q) w) as [w0 [texts|e]];
      simpl in Hw; subst w0; [|done].
    unfold call_rerank.
    destruct (client_rerank (_client self) (events w) _) as [response|msg]; simpl;
      [|done].
    rewrite (rerank_docs_nan_threshold _ _ _ _ _ Hnan). simpl.
    match goal with |- context [rerank client_rerank self results ?w1] =>
      destruct (IH w1) as [Hh Hout];
      destruct (rerank client_rerank self results w1) as [w2 [out|e]] end;
      simpl in *; [|done].
    split; [done|]. intros ? [= <-]. constructor; [done|]. by apply Hout.
Qed.

(** X10.  On an input whose references are live, every document that
    [rerank] returns carries a score that is not NaN and that reaches the
    threshold. *)
Theorem rerank_scores_reach_threshold self results w w' out q_out a' :
  live_results (heap w) results →
  rerank client_rerank self results w = (w', Ok out) →
  q_out ∈ out → a' ∈ documents q_out →
  ∃ d', heap w' !! a' = Some d' ∧
        PrimFloat.leb (_threshold self) (score d') = true ∧
        score d' ≠ nan.
Proof.
  intros Hlive Hrun [i Hi]%list_elem_of_lookup Ha'. unfold rerank in Hrun.
  destruct (rerank_loop_Ok client_rerank self (heap w) results [] w w' out)
    as (new & -> & Hnew); [done..|]. simpl in Hi.
  destruct (Forall2_lookup_r _ _ _ _ _ Hnew Hi) as (q_in & _ & Hq).
  destruct (reranked_of_pointwise _ _ _ _ _ _ _ Hq Ha')
    as (a & d & d' & _ & _ & Hd' & _ & _ & Hs & _).
  exists d'. split_and!; [done..|]. intros Hnan.
  by rewrite Hnan, leb_nan_r in Hs.
Qed.

(** *** The scores of the input *)

Lemma same_but_score_refl d : same_but_score d d.
Proof. done. Qed.

Lemma get_text_eq a w :
  get_text a w
  = (w, match heap w !! a with
        | Some d => Ok (text d)
        | None => Raise DanglingReference
        end).
Proof. unfold get_text. by destruct (heap w !! a). Qed.

Lemma same_texts (l : list addr) (w1 w2 : world Rest) :
  Forall2 same_but_score (heap w1) (heap w2) →
  (comprehension get_text l w1).2 = (comprehension get_text l w2).2.
Proof.
  intros Hh. induction l as [|a l IH]; [done|].
  simpl. unfold_M. rewrite !get_text_eq.
  pose proof (comprehension_get_text_world l w1) as Hw1.
  pose proof (comprehension_get_text_world l w2) as Hw2.
  destruct (heap w1 !! a) as [d1|] eqn:Hd1.
  - destruct (Forall2_lookup_l _ _ _ _ _ Hh Hd1) as (d2 & -> & Ht & _).
    destruct (comprehension get_text l w1) as [? [ts1|e1]],
             (comprehension get_text l w2) as [? [ts2|e2]]; simpl in *;
      congruence.
  - assert (heap w2 !! a = None) as ->; [|done].
    apply lookup_ge_None. apply lookup_ge_None in Hd1.
    by rewrite <- (Forall2_length _ _ _ Hh).
Qed.

Lemma with_score_same d1 d2 (s : float) :
  same_but_score d1 d2 → with_score d1 s = with_score d2 s.
Proof. intros [Ht Hr]. unfold with_score. by rewrite Ht, Hr. Qed.

Lemma rerank_docs_same_scores self q_docs rs acc w1 w2 :
  Forall2 same_but_score (heap w1) (heap w2) →
  ∃ new,
    heap (rerank_docs self q_docs rs acc w1).1 = heap w1 ++ new ∧
    heap (rerank_docs self q_docs rs acc w2).1 = heap w2 ++ new ∧
    (rerank_docs self q_docs rs acc w1).2 = (rerank_docs self q_docs rs acc w2).2.
Proof.
  revert acc w1 w2. induction rs as [|r rs IH]; intros acc w1 w2 Hh.
  { exists []. simpl. by rewrite !app_nil_r. }
  pose proof (Forall2_length _ _ _ Hh) as Hlen.
  destruct (above_threshold self r) eqn:Hk.
  - destruct (py_index q_docs (index r)) as [a|] eqn:Hi.
    + destruct (heap w1 !! a) as [d1|] eqn:Hd1.
      * destruct (Forall2_lookup_l _ _ _ _ _ Hh Hd1) as (d2 & Hd2 & Hsame).
        rewrite (rerank_docs_keep _ _ _ _ _ _ _ _ Hk Hi Hd1),
          (rerank_docs_keep _ _ _ _ _ _ _ _ Hk Hi Hd2).
        rewrite <- (with_score_same _ _ (relevance_score r) Hsame), <- Hlen.
        set (o := with_score d1 (relevance_score r)).
        destruct (IH (acc ++ [length (heap w1)])
                    {| heap := heap w1 ++ [o]; events := events w1 |}
                    {| heap := heap w2 ++ [o]; events := events w2 |})
          as (new & H1 & H2 & Hr).
        { simpl. apply Forall2_app; [done|]. by constructor. }
        exists (o :: new). simpl in H1, H2.
        rewrite H1, H2, <- !app_assoc. done.
      * assert (heap w2 !! a = None) as Hd2.
        { apply lookup_ge_None. apply lookup_ge_None in Hd1. by rewrite <- Hlen. }
        rewrite (rerank_docs_dangling _ _ _ _ _ _ _ Hk Hi Hd1),
          (rerank_docs_dangling _ _ _ _ _ _ _ Hk Hi Hd2).
        exists []. simpl. by rewrite !app_nil_r.
    + rewrite !(rerank_docs_index_error _ _ _ _ _ _ Hk Hi).
      exists []. simpl. by rewrite !app_nil_r.
  - rewrite !(rerank_docs_skip _ _ _ _ _ _ Hk). by apply IH.
Qed.

Lemma rerank_loop_same_scores self results acc w1 w2 :
  Forall2 same_but_score (heap w1) (heap w2) →
  events w1 = events w2 →
  ∃ new,
    heap (rerank_loop client_rerank self results acc w1).1 = heap w1 ++ new ∧
    heap (rerank_loop client_rerank self results acc w2).1 = heap w2 ++ new ∧
    (rerank_loop client_rerank self results acc w1).2
    = (rerank_loop client_rerank self results acc w2).2 ∧
    events (rerank_loop client_rerank self results acc w1).1
    = events (rerank_loop client_rerank self results acc w2).1.
Proof.
  revert acc w1 w2. induction results as [|q results IH]; intros acc w1 w2 Hh He.
  { exists []. simpl. by rewrite !app_nil_r. }
  simpl. unfold_M.
  pose proof (comprehension_get_text_world (documents q) w1) as Hw1.
  pose proof (comprehension_get_text_world (documents q) w2) as Hw2.
  pose proof (same_texts (documents q) w1 w2 Hh) as Hts.
  destruct (comprehension get_text (documents q) w1) as [? [texts|e]],
           (comprehension get_text (documents q) w2) as [? [texts2|e2]];
    simpl in Hw1, Hw2, Hts; simplify_eq.
  2:{ exists []. simpl. by rewrite !app_nil_r. }
  unfold call_rerank. rewrite <- He.
  set (req := request_of self (query q) texts2).
  destruct (client_rerank (_client self) (events w1) req) as [response|msg]; simpl.
  2:{ exists []. simpl. by rewrite !app_nil_r. }
  set (v1 := {| heap := heap w1; events := events w1 ++ [EvRerank req] |}).
  set (v2 := {| heap := heap w2; events := events w1 ++ [EvRerank req] |}).
  destruct (rerank_docs_same_scores self (documents q) response [] v1 v2 Hh)
    as (new1 & H1 & H2 & Hr).
  pose proof (rerank_docs_frame self (documents q) response [] v1) as [_ Hev1].
  pose proof (rerank_docs_frame self (documents q) response [] v2) as [_ Hev2].
  destruct (rerank_docs self (documents q) response [] v1) as [u1 [docs1|e1]],
           (rerank_docs self (documents q) response [] v2) as [u2 [docs2|e2]];
    simpl in H1, H2, Hr, Hev1, Hev2; simplify_eq.
  2:{ exists new1. simpl. by rewrite Hev1, Hev2. }
  destruct (IH (acc ++ [{| query := query q; documents := docs2 |}]) u1 u2)
    as (new2 & G1 & G2 & Gr & Ge).
  { rewrite H1, H2. apply Forall2_app; [done|]. by apply Forall_Forall2_diag, Forall_true. }
  { by rewrite Hev1, Hev2. }
  exists (new1 ++ new2). rewrite G1, G2, H1, H2, !app_assoc. done.
Qed.

(** X11.  The scores that the input documents carry play no part: on two
    stores whose documents differ at most in [score], with the same vendor
    history, [rerank] has the same outcome (the same returned references or
    the same exception), sends the same requests and creates the same
    objects. *)
Theorem rerank_ignores_input_scores self results w1 w2 :
  Forall2 same_but_score (heap w1) (heap w2) →
  events w1 = events w2 →
  (rerank client_rerank self results w1).2 = (rerank client_rerank self results w2).2 ∧
  events (rerank client_rerank self results w1).1
  = events (rerank client_rerank self results w2).1 ∧
  ∃ new, heap (rerank client_rerank self results w1).1 = heap w1 ++ new ∧
         heap (rerank client_rerank self results w2).1 = heap w2 ++ new.
Proof.
  intros Hh He.
  destruct (rerank_loop_same_scores self results [] w1 w2 Hh He)
    as (new & H1 & H2 & Hr & Hev).
  split_and!; [done..|]. by exists new.
Qed.

(** *** From the constructor to the requests *)

Variable cohere_Client : list vendor_event → option string → vendor_result Client.

Lemma rerank_loop_params self results acc w w' out :
  rerank_loop client_rerank self results acc w = (w', Ok out) →
  ∃ reqs, events w' = events w ++ map EvRerank reqs ∧
          length reqs = length results ∧
          Forall (λ req, req_top_n req = _top_n self ∧
                         req_model req = _model_name self) reqs.
Proof.
  revert acc w. induction results as [|q results IH]; intros acc w.
  - simpl. unfold_M. intros [= <- <-]. exists []. simpl. by rewrite app_nil_r.
  - simpl. unfold_M.
    pose proof (comprehension_get_text_world (documents q) w) as Hw.
    destruct (comprehension get_text (documents q) w) as [w0 [texts|e]];
      simpl in Hw; subst w0; [|done].
    unfold call_rerank.
    set (req := request_of self (query q) texts).
    destruct (client_rerank (_client self) (events w) req) as [response|msg]; simpl;
      [|done].
    set (w1 := {| heap := heap w; events := events w ++ [EvRerank req] |}).
    pose proof (rerank_docs_frame self (documents q) response [] w1) as [_ Hev].
    destruct (rerank_docs self (documents q) response [] w1) as [w2 [docs|e]];
      simpl in Hev; [|done].
    intros Hrun. destruct (IH _ _ Hrun) as (reqs & Hreqs & Hlen & Hpar).
    exists (req :: reqs). rewrite Hreqs, Hev. simpl. rewrite <- app_assoc.
    split_and!; [done|by rewrite Hlen|]. by constructor.
Qed.

(** X12.  A reranker built by the constructor and then used once has asked
    the vendor for one client, with the API key given, and then for one
    reranking per query result, each with the [top_n] and the model name
    that the constructor was given. *)
Theorem init_then_rerank api_key model_name top_n threshold results w w1 self w' out :
  __init__ cohere_Client true api_key model_name top_n threshold w = (w1, Ok self) →
  rerank client_rerank self results w1 = (w', Ok out) →
  ∃ reqs, events w' = events w ++ EvClient api_key :: map EvRerank reqs ∧
          length reqs = length results ∧
          Forall (λ req, req_top_n req = top_n ∧ req_model req = model_name) reqs.
Proof.
  unfold __init__. simpl. unfold_M. unfold new_Client.
  destruct (cohere_Client (events w) api_key) as [client|msg]; simpl; [|done].
  intros [= <- <-] Hrun.
  destruct (rerank_loop_params _ _ _ _ _ _ Hrun) as (reqs & Hev & Hlen & Hpar).
  exists reqs. simpl in Hev. rewrite Hev, <- app_assoc. by split_and!.
Qed.

End Coverage.

(** *** At the example stores *)

Import Examples MoreExamples.

Lemma rerank_vendor_error_witness :
  rerank fails_second reranker0 ([q_first] ++ q_second :: []) store0
  = ({| heap := heap store_after_first;
        events := events store_after_first
                  ++ [EvRerank (request_of reranker0 (query q_second) ["beta"])] |},
     Raise (VendorException "rate limit")).
Proof.
  apply (rerank_vendor_error fails_second reranker0 [q_first] q_second [] store0
           store_after_first [{| query := "first"; documents := [2%nat] |}]
           ["beta"] "rate limit").
  - vm_compute. reflexivity.
  - constructor; [|constructor]. exists doc_b. split; reflexivity.
  - reflexivity.
Defined.

Lemma rerank_index_out_of_range_witness :
  (rerank out_of_range reranker0 ([] ++ q_first :: [q_second]) store0).2
  = Raise IndexError ∧
  events (rerank out_of_range reranker0 ([] ++ q_first :: [q_second]) store0).1
  = events store0 ++ [EvRerank (request_of reranker0 (query q_first) ["alpha"; "beta"])].
Proof.
  apply (rerank_index_out_of_range out_of_range reranker0 [] q_first [q_second]
           store0 store0 [] ["alpha"; "beta"] []
           {| index := 2; relevance_score := 0.5%float |} []).
  - reflexivity.
  - constructor; [by exists doc_a|]. constructor; [by exists doc_b|]. constructor.
  - reflexivity.
  - constructor.
  - vm_compute. reflexivity.
  - unfold in_range. simpl. lia.
Defined.

Lemma first_only_in_range evs req :
  ∃ response,
    first_only tt evs req = Returns response ∧
    Forall (λ r, above_threshold reranker0 r = true →
                 in_range (req_documents req) (index r)) response.
Proof.
  unfold first_only. destruct (req_documents req) as [|t ts].
  - eexists. split; [reflexivity|constructor].
  - eexists. split; [reflexivity|]. constructor; [|constructor; [|constructor]].
    + intros _. unfold in_range. simpl length. simpl index. lia.
    + intros H. vm_compute in H. discriminate H.
Qed.

Lemma rerank_returns_when_kept_in_range_witness :
  ∃ w' out, rerank first_only reranker0 results0 store0 = (w', Ok out).
Proof.
  apply (rerank_returns_when_kept_in_range first_only reranker0 results0 store0).
  - apply store0_live.
  - apply first_only_in_range.
Defined.

Lemma rerank_requests_witness :
  ∃ reqs, events store1 = events store0 ++ map EvRerank reqs ∧
          Forall2 (request_sent reranker0 (heap store0)) results0 reqs.
Proof.
  apply (rerank_requests example_rerank reranker0 results0 store0 store1 reranked0).
  - apply store0_live.
  - apply rerank_example.
Defined.

Lemma rerank_returns_distinct_objects_witness :
  NoDup (all_documents reranked0).
Proof.
  apply (rerank_returns_distinct_objects example_rerank reranker0 results0 store0
           store1 reranked0).
  apply rerank_example.
Defined.

Lemma rerank_keeps_references_live_witness :
  live_results (heap store1) reranked0 ∧
  (live_results (heap store0) results0 → live_results (heap store1) results0).
Proof.
  apply (rerank_keeps_references_live example_rerank reranker0 results0 store0
           store1 reranked0).
  apply rerank_example.
Defined.

Lemma rerank_nan_threshold_keeps_nothing_witness :
  heap (rerank example_rerank nan_reranker results0 store0).1 = heap store0 ∧
  ∀ out, (rerank example_rerank nan_reranker results0 store0).2 = Ok out →
         Forall (λ q_out, documents q_out = []) out.
Proof.
  apply (rerank_nan_threshold_keeps_nothing example_rerank nan_reranker results0 store0).
  reflexivity.
Defined.

Lemma rerank_scores_reach_threshold_witness :
  ∃ d', heap store1 !! 3%nat = Some d' ∧
        PrimFloat.leb (_threshold reranker0) (score d') = true ∧
        score d' ≠ nan.
Proof.
  apply (rerank_scores_reach_threshold example_rerank reranker0 results0 store0 store1
           reranked0 {| query := "first"; documents := [2; 3]%nat |} 3%nat).
  - apply store0_live.
  - apply rerank_example.
  - apply list_elem_of_here.
  - apply list_elem_of_further, list_elem_of_here.
Defined.

Lemma rerank_ignores_input_scores_witness :
  (rerank example_rerank reranker0 results0 store0).2
  = (rerank example_rerank reranker0 results0 store0').2 ∧
  events (rerank example_rerank reranker0 results0 store0).1
  = events (rerank example_rerank reranker0 results0 store0').1 ∧
  ∃ new, heap (rerank example_rerank reranker0 results0 store0).1 = heap store0 ++ new ∧
         heap (rerank example_rerank reranker0 results0 store0').1 = heap store0' ++ new.
Proof.
  apply (rerank_ignores_input_scores example_rerank reranker0 results0 store0 store0').
  - constructor; [split; reflexivity|]. constructor; [split; reflexivity|]. constructor.
  - reflexivity.
Defined.

Lemma init_then_rerank_witness :
  ∃ reqs,
    events (rerank example_rerank reranker0 results0 store_with_client).1
    = events store0 ++ EvClient (Some "key") :: map EvRerank reqs ∧
    length reqs = length results0 ∧
    Forall (λ req, req_top_n req = default_top_n ∧ req_model req = default_model_name)
      reqs.
Proof.
  apply (init_then_rerank example_rerank example_Client (Some "key") default_model_name
           default_top_n 0.125%float results0 store0 store_with_client reranker0 _
           reranked0).
  - reflexivity.
  - vm_compute. reflexivity.
Defined.

End RerankerCoverage.
